(** * The pintk session wrapper ([src/pint/pintk/pulsar.py])

    A shallow embedding of the [Pulsar] class: the object that the pintk
    widgets share, holding the full and the selected TOA sets, the set of
    deleted TOA indices, the pre-fit / post-fit model pair with their
    residuals, and the flags that drive fitting, jump bookkeeping and
    pulse-number tracking.

    Conventions of the embedding.
    - A method is a computation in the monad [M Session]: it threads the
      session and either returns a value or raises.  A raise keeps the
      session as it was mutated so far, as a Python exception does.
    - An astropy table is a list of rows plus the names of its optional
      columns; every TOA row carries its stable [index].
    - MJDs, pulse numbers and phase offsets are exact rationals: the
      embedding idealises the floating-point arithmetic of the source.
    - The collaborators that are not part of [pulsar.py] (timing model
      payload, residual evaluator, fit strategy, synthetic TOAs) are the
      fields of the class [Externals]. *)

From Stdlib Require Import QArith Qminmax ZArith Permutation Lqa Lia.
From stdpp Require Import gmap strings list.

Set Default Proof Using "Type".

(** ** Python control flow: values, exceptions, state *)

Module Py.

Inductive exn : Type :=
| TypeError
| AttributeError
| IndexError
| ValueError
| KeyError
| FitError.

Inductive outcome (A : Type) : Type :=
| Ok (a : A)
| Raise (e : exn).
Arguments Ok {A} a.
Arguments Raise {A} e.

Definition M (S A : Type) : Type := S -> S * outcome A.

Definition ret {S A} (a : A) : M S A := fun s => (s, Ok a).
Definition raise {S A} (e : exn) : M S A := fun s => (s, Raise e).
Definition bind {S A B} (m : M S A) (k : A -> M S B) : M S B :=
  fun s => match m s with
           | (s', Ok a) => k a s'
           | (s', Raise e) => (s', Raise e)
           end.
Definition get {S} : M S S := fun s => (s, Ok s).
Definition modify {S} (f : S -> S) : M S unit := fun s => (f s, Ok tt).
Definition lift {S A} (o : outcome A) : M S A := fun s => (s, o).
Definition when {S} (b : bool) (m : M S unit) : M S unit :=
  if b then m else ret tt.

(** The session a computation leaves behind, raised or not. *)
Definition exec {S A} (m : M S A) (s : S) : S := fst (m s).
Definition result {S A} (m : M S A) (s : S) : outcome A := snd (m s).

Definition is_ok {A} (o : outcome A) : bool :=
  match o with Ok _ => true | Raise _ => false end.

End Py.
Import Py.

(** Plain exception propagation, for steps that do not touch the session
    ([x ← o; k] in stdpp's notation). *)
#[global] Instance outcome_bind : MBind outcome :=
  fun A B k o => match o with Ok a => k a | Raise e => Raise e end.
#[global] Instance outcome_fmap : FMap outcome :=
  fun A B g o => match o with Ok a => Ok (g a) | Raise e => Raise e end.

Declare Scope py_scope.
Delimit Scope py_scope with py.
Notation "x <- m ;; k" := (bind m (fun x => k))
  (at level 100, m at next level, right associativity) : py_scope.
Notation "m ;;; k" := (bind m (fun _ => k))
  (at level 100, right associativity) : py_scope.
Local Open Scope py_scope.

(** ** Boolean masks (numpy boolean arrays) *)

(** [any(mask)] and [~mask]. *)
Definition any (mask : list bool) : bool := existsb id mask.
Definition invert (mask : list bool) : list bool := map negb mask.

(** [a[mask]] for a boolean mask of the same length as [a]. *)
Fixpoint select {A} (mask : list bool) (l : list A) : list A :=
  match mask, l with
  | b :: mask', x :: l' => if b then x :: select mask' l' else select mask' l'
  | _, _ => []
  end.

(** [a[mask] = f(a[mask])] elementwise, as [a[mask] += c] does. *)
Fixpoint update_where {A} (f : A -> A) (mask : list bool) (l : list A) : list A :=
  match mask, l with
  | b :: mask', x :: l' => (if b then f x else x) :: update_where f mask' l'
  | _, _ => l
  end.

(** [np.where(col == x)[0]] reduced to its first entry, if any. *)
Fixpoint first_pos (x : Z) (col : list Z) : option nat :=
  match col with
  | [] => None
  | y :: col' => if bool_decide (y = x) then Some 0%nat else S <$> first_pos x col'
  end.

(** [del_inds[p] |= 1]. *)
Definition mark (p : nat) (del_inds : list bool) : list bool :=
  <[p := true]> del_inds.

Definition count_true (mask : list bool) : nat := length (filter (fun b => b = true) mask).

(** ** TOA tables *)

(** The flag dictionary of a TOA.  Modelled from the spec: the data model
    gives the jump membership flag as ["jump" -> {jump_id, ...}]; the key
    ["jump"] is present exactly when the set of jump ids is not empty. *)
Record Flags : Type := mkFlags {
  jump : gset nat;
  other : gmap string string;
}.

Definition has_jump_key (d : Flags) : bool := negb (bool_decide (jump d = ∅)).

(** One TOA: the fixed columns, and the cells of the optional columns. *)
Record Row : Type := mkRow {
  index : Z;
  obs : string;
  mjd : Q;
  flags : Flags;
  cells : gmap string Q;
}.

Record Table : Type := mkTable {
  colnames : list string;
  rows : list Row;
}.

Definition table_len (t : Table) : nat := length (rows t).

(** [table["index"]]. *)
Definition index_col (t : Table) : list Z := map index (rows t).

(** [name in table.colnames]. *)
Definition has_col (name : string) (t : Table) : bool :=
  bool_decide (name ∈ colnames t).

(** [table[name]], cell by cell. *)
Definition column (name : string) (t : Table) : list (option Q) :=
  map (fun r => cells r !! name) (rows t).

Definition set_cell (name : string) (v : Q) (r : Row) : Row :=
  mkRow (index r) (obs r) (mjd r) (flags r) (<[name := v]> (cells r)).

(** [table[name] = f(row)] for every row: the column is added when it is
    not there yet and overwritten when it is. *)
Definition assign_col (name : string) (f : Row -> Q) (t : Table) : Table :=
  mkTable (if has_col name t then colnames t else colnames t ++ [name])
          (map (fun r => set_cell name (f r) r) (rows t)).

(** [table[name] = np.zeros(n)]; astropy refuses a column of another
    length than the table. *)
Definition assign_zeros (name : string) (n : nat) (t : Table) : outcome Table :=
  if bool_decide (n = table_len t)
  then Ok (assign_col name (fun _ => 0%Q) t)
  else Raise ValueError.

(** [table[mask]] for a boolean array: numpy raises when the lengths
    differ. *)
Definition table_mask (mask : list bool) (t : Table) : outcome Table :=
  if bool_decide (length mask = table_len t)
  then Ok (mkTable (colnames t) (select mask (rows t)))
  else Raise IndexError.

(** [table.group_by("obs")]: astropy returns the rows sorted by the key
    column with a stable sort, so rows of one observatory keep their
    relative order. *)
Fixpoint insert_by_obs (r : Row) (l : list Row) : list Row :=
  match l with
  | [] => [r]
  | x :: l' => if String.leb (obs r) (obs x) then r :: l
               else x :: insert_by_obs r l'
  end.

Definition group_by_obs (t : Table) : Table :=
  mkTable (colnames t) (foldr insert_by_obs [] (rows t)).

(** [cell += c] on the cell of column [name]. *)
Definition bump (name : string) (c : Q) (r : Row) : Row :=
  match cells r !! name with
  | Some v => set_cell name (v + c)%Q r
  | None => r
  end.

(** [table[name][mask] += c]: a missing column is a [KeyError], a mask of
    another length an [IndexError]. *)
Definition add_where (name : string) (mask : list bool) (c : Q) (t : Table)
  : outcome Table :=
  if negb (has_col name t) then Raise KeyError
  else if negb (bool_decide (length mask = table_len t)) then Raise IndexError
  else Ok (mkTable (colnames t) (update_where (bump name c) mask (rows t))).

(** A [TOAs] object: what the session uses of it is its [table]
    attribute, which [delete_TOAs] may set to [None]. *)
Record TOAs : Type := mkTOAs {
  table : option Table;
}.

(** [toas.ntoas] is [len(toas.table)]; [len(None)] is a [TypeError]. *)
Definition ntoas (t : TOAs) : outcome nat :=
  match table t with
  | Some tb => Ok (table_len tb)
  | None => Raise TypeError
  end.

(** [toas.get_mjds()]. *)
Definition get_mjds (t : TOAs) : outcome (list Q) :=
  match table t with
  | Some tb => Ok (map mjd (rows tb))
  | None => Raise TypeError
  end.

(** ** Timing models and their jump component *)

(** A jump parameter [JUMPn]: its number, value and frozen flag. *)
Record JumpParam : Type := mkJumpParam {
  jid : nat;
  jvalue : Q;
  jfrozen : bool;
}.

(** The [PhaseJump] component: its jump parameters, oldest first (the
    order of [get_jump_param_objects()]).  Components are mutable objects
    that two models can share, so they live in a store and a model holds
    the address of its component. *)
Record PhaseJump : Type := mkPhaseJump {
  jump_params : list JumpParam;
}.

(** [class Fitters(Enum)]. *)
Inductive Fitters : Type := POWELL | WLS | GLS.

(** The collaborators of the session.  Modelled from the spec: section 6
    gives them as contracts only (the Timing Model payload, the Residual
    Evaluator as a pure function of TOAs, model and tracking mode, the Fit
    Strategy that returns a refined model or fails, the pulse number of a
    TOA under a model, the synthetic TOA generator and the sampler of
    random models), and the par and tim files the session was opened on
    ([get_model], [get_TOAs]). *)
Class Externals : Type := {
  Params : Type;
  Resid : Type;
  Residuals : TOAs -> Params * option PhaseJump -> option string -> Resid;
  fit_toas : Fitters -> TOAs -> Params * option PhaseJump
             -> outcome (Params * option PhaseJump);
  pulse_number : Params * option PhaseJump -> Row -> Q;
  make_fake_toas_uniform : Q -> Q -> nat -> Params * option PhaseJump -> list Q;
  calculate_random_models :
    Fitters -> TOAs -> Params * option PhaseJump -> list Q -> list (list Q);
  mean : list Q -> Q;
  get_model : Params * option PhaseJump;
  get_TOAs : Params -> TOAs;
}.

Section Definitions.
Context `{E : Externals}.

(** A model object: its parameters other than jumps, and the address
    of its [PhaseJump] component when it has one
    ([model.components["PhaseJump"]]). *)
Record TimingModel : Type := mkModel {
  params : Params;
  PhaseJump_at : option nat;
}.

(** What a collaborator sees of a model: the parameters and the content
    of the jump component. *)
Definition ModelView : Type := (Params * option PhaseJump)%type.

(** The [fitter] local of [fit], kept as [self.f]. *)
Record FitterObj : Type := mkFitterObj {
  f_kind : Fitters;
  f_toas : TOAs;
  f_model : ModelView;
}.

(** The attributes of a [Pulsar] object, with the store of jump
    components. *)
Record Session : Type := mkSession {
  comps : gmap nat PhaseJump;
  prefit_model : TimingModel;
  postfit_model : option TimingModel;
  prefit_resids : Resid;
  postfit_resids : option Resid;
  all_toas : TOAs;
  selected_toas : TOAs;
  deleted : gset Z;
  stashed : option TOAs;
  fitter : Fitters;
  fitted : bool;
  use_pulse_numbers : bool;
  f : option FitterObj;
  prefit_resids_no_jumps : option Resid;
  random_resids : option (list (list Q));
  fake_toas : option (list Q);
}.

(** Attribute assignment, [self.x = v]. *)
Definition set_comps (v : gmap nat PhaseJump) (s : Session) : Session :=
  mkSession v (prefit_model s) (postfit_model s) (prefit_resids s)
    (postfit_resids s) (all_toas s) (selected_toas s) (deleted s)
    (stashed s) (fitter s) (fitted s) (use_pulse_numbers s) (f s)
    (prefit_resids_no_jumps s) (random_resids s) (fake_toas s).
Definition set_prefit_model (v : TimingModel) (s : Session) : Session :=
  mkSession (comps s) v (postfit_model s) (prefit_resids s)
    (postfit_resids s) (all_toas s) (selected_toas s) (deleted s)
    (stashed s) (fitter s) (fitted s) (use_pulse_numbers s) (f s)
    (prefit_resids_no_jumps s) (random_resids s) (fake_toas s).
Definition set_postfit_model (v : option TimingModel) (s : Session) : Session :=
  mkSession (comps s) (prefit_model s) v (prefit_resids s)
    (postfit_resids s) (all_toas s) (selected_toas s) (deleted s)
    (stashed s) (fitter s) (fitted s) (use_pulse_numbers s) (f s)
    (prefit_resids_no_jumps s) (random_resids s) (fake_toas s).
Definition set_prefit_resids (v : Resid) (s : Session) : Session :=
  mkSession (comps s) (prefit_model s) (postfit_model s) v
    (postfit_resids s) (all_toas s) (selected_toas s) (deleted s)
    (stashed s) (fitter s) (fitted s) (use_pulse_numbers s) (f s)
    (prefit_resids_no_jumps s) (random_resids s) (fake_toas s).
Definition set_postfit_resids (v : option Resid) (s : Session) : Session :=
  mkSession (comps s) (prefit_model s) (postfit_model s) (prefit_resids
    s) v (all_toas s) (selected_toas s) (deleted s) (stashed s) (fitter
    s) (fitted s) (use_pulse_numbers s) (f s) (prefit_resids_no_jumps s)
    (random_resids s) (fake_toas s).
Definition set_all_toas (v : TOAs) (s : Session) : Session :=
  mkSession (comps s) (prefit_model s) (postfit_model s) (prefit_resids
    s) (postfit_resids s) v (selected_toas s) (deleted s) (stashed s)
    (fitter s) (fitted s) (use_pulse_numbers s) (f s)
    (prefit_resids_no_jumps s) (random_resids s) (fake_toas s).
Definition set_selected_toas (v : TOAs) (s : Session) : Session :=
  mkSession (comps s) (prefit_model s) (postfit_model s) (prefit_resids
    s) (postfit_resids s) (all_toas s) v (deleted s) (stashed s) (fitter
    s) (fitted s) (use_pulse_numbers s) (f s) (prefit_resids_no_jumps s)
    (random_resids s) (fake_toas s).
Definition set_deleted (v : gset Z) (s : Session) : Session :=
  mkSession (comps s) (prefit_model s) (postfit_model s) (prefit_resids
    s) (postfit_resids s) (all_toas s) (selected_toas s) v (stashed s)
    (fitter s) (fitted s) (use_pulse_numbers s) (f s)
    (prefit_resids_no_jumps s) (random_resids s) (fake_toas s).
Definition set_stashed (v : option TOAs) (s : Session) : Session :=
  mkSession (comps s) (prefit_model s) (postfit_model s) (prefit_resids
    s) (postfit_resids s) (all_toas s) (selected_toas s) (deleted s) v
    (fitter s) (fitted s) (use_pulse_numbers s) (f s)
    (prefit_resids_no_jumps s) (random_resids s) (fake_toas s).
Definition set_fitted (v : bool) (s : Session) : Session :=
  mkSession (comps s) (prefit_model s) (postfit_model s) (prefit_resids
    s) (postfit_resids s) (all_toas s) (selected_toas s) (deleted s)
    (stashed s) (fitter s) v (use_pulse_numbers s) (f s)
    (prefit_resids_no_jumps s) (random_resids s) (fake_toas s).
Definition set_use_pulse_numbers (v : bool) (s : Session) : Session :=
  mkSession (comps s) (prefit_model s) (postfit_model s) (prefit_resids
    s) (postfit_resids s) (all_toas s) (selected_toas s) (deleted s)
    (stashed s) (fitter s) (fitted s) v (f s) (prefit_resids_no_jumps s)
    (random_resids s) (fake_toas s).
Definition set_f (v : option FitterObj) (s : Session) : Session :=
  mkSession (comps s) (prefit_model s) (postfit_model s) (prefit_resids
    s) (postfit_resids s) (all_toas s) (selected_toas s) (deleted s)
    (stashed s) (fitter s) (fitted s) (use_pulse_numbers s) v
    (prefit_resids_no_jumps s) (random_resids s) (fake_toas s).
Definition set_prefit_resids_no_jumps (v : option Resid) (s : Session) : Session :=
  mkSession (comps s) (prefit_model s) (postfit_model s) (prefit_resids
    s) (postfit_resids s) (all_toas s) (selected_toas s) (deleted s)
    (stashed s) (fitter s) (fitted s) (use_pulse_numbers s) (f s) v
    (random_resids s) (fake_toas s).
Definition set_random_resids (v : option (list (list Q))) (s : Session) : Session :=
  mkSession (comps s) (prefit_model s) (postfit_model s) (prefit_resids
    s) (postfit_resids s) (all_toas s) (selected_toas s) (deleted s)
    (stashed s) (fitter s) (fitted s) (use_pulse_numbers s) (f s)
    (prefit_resids_no_jumps s) v (fake_toas s).
Definition set_fake_toas (v : option (list Q)) (s : Session) : Session :=
  mkSession (comps s) (prefit_model s) (postfit_model s) (prefit_resids
    s) (postfit_resids s) (all_toas s) (selected_toas s) (deleted s)
    (stashed s) (fitter s) (fitted s) (use_pulse_numbers s) (f s)
    (prefit_resids_no_jumps s) (random_resids s) v.


(** What a collaborator sees of model [m] in session [s]. *)
Definition view (s : Session) (m : TimingModel) : ModelView :=
  (params m,
   match PhaseJump_at m with
   | Some a => comps s !! a
   | None => None
   end).

(** [toas.table] used as a table; [None] raises [e]. *)
Definition need_table (e : exn) (t : TOAs) : outcome Table :=
  match table t with
  | Some tb => Ok tb
  | None => Raise e
  end.

(** *** [Pulsar._delete_TOAs] *)

(** The loop over [self.deleted]: the first position that carries a
    deleted index is marked.  (The [group_by("index")] before it returns
    a new table that is dropped, so it changes nothing.) *)
Definition del_inds_of (deleted : gset Z) (t : Table) : list bool :=
  foldl (fun del_inds ii =>
           match first_pos ii (index_col t) with
           | Some p => mark p del_inds
           | None => del_inds
           end)
        (replicate (table_len t) false) (elements deleted).

Definition _delete_TOAs (toa_table : option Table) : M Session (option Table) :=
  match toa_table with
  | None => raise AttributeError
  | Some t =>
      s <- get;;
      let del_inds := del_inds_of (deleted s) t in
      if (count_true del_inds <? table_len t)%nat
      then t' <- lift (table_mask (invert del_inds) t);;
           ret (Some (group_by_obs t'))
      else ret None
  end.

(** *** [Pulsar.delete_TOAs] *)

(** The list comprehension that rebuilds the selection: it pairs the
    index column of the full table, which is already the table after
    deletion, with the mask it was given. *)
Definition newselected_of (indices : list Z) (all_tb : Table)
           (selected : list bool) : list bool :=
  snd <$> filter (fun p => fst p ∉ indices) (zip (index_col all_tb) selected).

(** [if self.stashed:].  Modelled from the spec: a TOA set exposes
    [ntoas]; the truth value of a [TOAs] object is that it has TOAs. *)
Definition delete_from_stash : M Session unit :=
  s <- get;;
  match stashed s with
  | None => ret tt
  | Some st =>
      n <- lift (ntoas st);;
      if (n =? 0)%nat then ret tt
      else tb <- _delete_TOAs (table st);;
           modify (set_stashed (Some (mkTOAs tb)))
  end.

Definition delete_TOAs (indices : list Z) (selected : option (list bool))
  : M Session (list bool) :=
  modify (fun s => set_deleted (deleted s ∪ list_to_set indices) s);;;
  match selected with
  | Some _ =>
      s <- get;;
      tb <- _delete_TOAs (table (selected_toas s));;
      modify (set_selected_toas (mkTOAs tb))
  | None => ret tt
  end;;;
  s <- get;;
  tb <- _delete_TOAs (table (all_toas s));;
  modify (set_all_toas (mkTOAs tb));;;
  s <- get;;
  selected' <-
    match table (selected_toas s) with
    | None =>
        modify (set_selected_toas (all_toas s));;;
        n <- lift (ntoas (all_toas s));;
        ret (replicate n false)
    | Some _ =>
        all_tb <- lift (need_table TypeError (all_toas s));;
        match selected with
        | None => raise TypeError
        | Some sel =>
            let newselected := newselected_of indices all_tb sel in
            tb <- lift (table_mask newselected all_tb);;
            modify (set_selected_toas (mkTOAs (Some tb)));;;
            ret newselected
        end
    end;;
  delete_from_stash;;;
  ret selected'.

(** *** [Pulsar.update_resids] *)

Definition track_mode_of (s : Session) : option string :=
  if use_pulse_numbers s then Some "use_pulse_numbers" else None.

Definition update_resids : M Session unit :=
  s <- get;;
  let track_mode := track_mode_of s in
  modify (set_prefit_resids
            (Residuals (all_toas s) (view s (prefit_model s)) track_mode));;;
  if fitted s then
    match postfit_model s with
    | Some pm =>
        modify (set_postfit_resids
                  (Some (Residuals (all_toas s) (view s pm) track_mode)))
    | None => raise AttributeError
    end
  else ret tt.

(** *** [Pulsar.add_phase_wrap] *)

(** [toas.compute_pulse_numbers(model)].  Modelled from the spec: it
    writes the [pulse_number] column from the model and the TOAs. *)
Definition compute_pulse_numbers (mv : ModelView) (t : TOAs) : outcome TOAs :=
  tb ← need_table TypeError t;
  Ok (mkTOAs (Some (assign_col "pulse_number" (pulse_number mv) tb))).

(** [toas.table[name] = np.zeros(toas.ntoas)]. *)
Definition zero_column (name : string) (t : TOAs) : outcome TOAs :=
  n ← ntoas t;
  tb ← need_table TypeError t;
  tb' ← assign_zeros name n tb;
  Ok (mkTOAs (Some tb')).

(** [name not in self.all_toas.table.colnames or
     name not in self.selected_toas.table.colnames], the second test
    only evaluated when the first is false. *)
Definition col_absent (name : string) : M Session bool :=
  s <- get;;
  all_tb <- lift (need_table AttributeError (all_toas s));;
  if negb (has_col name all_tb) then ret true
  else sel_tb <- lift (need_table AttributeError (selected_toas s));;
       ret (negb (has_col name sel_tb)).

(** The model the pulse numbers come from: post-fit once fitted. *)
Definition current_model : M Session TimingModel :=
  s <- get;;
  if fitted s then
    match postfit_model s with
    | Some pm => ret pm
    | None => raise AttributeError
    end
  else ret (prefit_model s).

Definition compute_both (m : TimingModel) : M Session unit :=
  s <- get;;
  a <- lift (compute_pulse_numbers (view s m) (all_toas s));;
  modify (set_all_toas a);;;
  b <- lift (compute_pulse_numbers (view s m) (selected_toas s));;
  modify (set_selected_toas b).

Definition add_phase_wrap (selected : list bool) (phase : Q) : M Session unit :=
  no_pn <- col_absent "pulse_number";;
  when no_pn (m <- current_model;; compute_both m);;;
  no_dpn <- col_absent "delta_pulse_number";;
  when no_dpn
    (s <- get;;
     a <- lift (zero_column "delta_pulse_number" (all_toas s));;
     modify (set_all_toas a);;;
     b <- lift (zero_column "delta_pulse_number" (selected_toas s));;
     modify (set_selected_toas b));;;
  s <- get;;
  tb <- lift (need_table TypeError (all_toas s));;
  tb' <- lift (add_where "delta_pulse_number" selected phase tb);;
  modify (set_all_toas (mkTOAs (Some tb')));;;
  modify (set_use_pulse_numbers true);;;
  update_resids.


(** *** Jump bookkeeping of the timing model *)

Definition jump_ids (c : PhaseJump) : list nat := jid <$> jump_params c.

(** [component.get_number_of_jumps()]. *)
Definition get_number_of_jumps (c : PhaseJump) : nat := length (jump_params c).

(** The lowest positive integer that is not in [used]. *)
Fixpoint lowest_unused_from (fuel k : nat) (used : list nat) : nat :=
  match fuel with
  | O => k
  | S fuel' => if bool_decide (k ∈ used)
               then lowest_unused_from fuel' (S k) used
               else k
  end.

Definition lowest_unused (used : list nat) : nat :=
  lowest_unused_from (length used) 1 used.

Definition set_flags (d : Flags) (r : Row) : Row :=
  mkRow (index r) (obs r) (mjd r) d (cells r).

Definition add_flag (n : nat) (r : Row) : Row :=
  set_flags (mkFlags ({[n]} ∪ jump (flags r)) (other (flags r))) r.

Definition clear_flag (n : nat) (r : Row) : Row :=
  set_flags (mkFlags (jump (flags r) ∖ {[n]}) (other (flags r))) r.

(** The flag dictionaries are shared objects of the full table: a
    helper that is handed some of them changes the rows in place. *)
Definition on_all_rows (g : list Row -> list Row) (s : Session) : Session :=
  match table (all_toas s) with
  | Some tb => set_all_toas (mkTOAs (Some (mkTable (colnames tb) (g (rows tb))))) s
  | None => s
  end.

(** [model.components["PhaseJump"]]: the address and the content. *)
Definition component_of (m : TimingModel) : M Session (nat * PhaseJump) :=
  s <- get;;
  match PhaseJump_at m with
  | None => raise KeyError
  | Some a =>
      match comps s !! a with
      | Some c => ret (a, c)
      | None => raise KeyError
      end
  end.

(** [self.all_toas.table["flags"][selected]]: the dictionaries of the
    selected rows, given by their positions. *)
Definition selected_flags (selected : list bool) : M Session (list bool) :=
  s <- get;;
  tb <- lift (need_table TypeError (all_toas s));;
  if bool_decide (length selected = table_len tb) then ret selected
  else raise IndexError.

(** [model.add_jump_and_flags(flags)].  Modelled from the spec: a new
    jump id is allocated as the lowest unused positive integer, the
    TOAs handed over receive that id in their jump-flag set, and a new
    unfrozen jump parameter is added to the model.  The result is the
    number [n] of the new parameter [JUMPn]. *)
Definition add_jump_and_flags (m : TimingModel) (sel : list bool) : M Session nat :=
  ac <- component_of m;;
  let ind := lowest_unused (jump_ids ac.2) in
  modify (fun s =>
    set_comps (<[ac.1 := mkPhaseJump (jump_params ac.2 ++ [mkJumpParam ind 0 false])]>
                 (comps s)) s);;;
  modify (on_all_rows (update_where (add_flag ind) sel));;;
  ret ind.

(** [model.delete_jump_and_flags(flags, num)].  Modelled from the spec:
    the jump's parameter is removed and, when the flag dictionaries are
    handed over ([with_flags]; the post-fit model is called with
    [None]), its membership flags are cleared. *)
Definition delete_jump_and_flags (m : TimingModel) (with_flags : bool) (num : nat)
  : M Session unit :=
  ac <- component_of m;;
  modify (fun s =>
    set_comps (<[ac.1 := mkPhaseJump (filter (fun p => jid p ≠ num) (jump_params ac.2))]>
                 (comps s)) s);;;
  when with_flags (modify (on_all_rows (map (clear_flag num)))).

(** *** [Pulsar.add_jump] *)

(** What [add_jump] returns: [None], the name of the new jump, or the
    mask of the jump it removed. *)
Inductive retval : Type :=
| RNone
| RName (ind : nat)
| RMask (toas_jumped : list bool).

(** [["jump" in dict.keys() and str(num) in dict["jump"] for dict in
     self.all_toas.table["flags"]]]. *)
Definition toas_jumped_of (num : nat) (tb : Table) : list bool :=
  (fun r => has_jump_key (flags r) && bool_decide (num ∈ jump (flags r)))
    <$> rows tb.

(** The first [num] of the loop whose mask is [np.array_equal] to the
    selection; the loop returns as soon as it has removed that jump. *)
Definition matching_jump (numjumps : nat) (selected : list bool) (tb : Table)
  : option nat :=
  List.find (fun num => bool_decide (toas_jumped_of num tb = selected))
            (seq 1 numjumps).

(** [self.postfit_model], once [self.fitted] holds. *)
Definition the_postfit_model : M Session TimingModel :=
  s <- get;;
  match postfit_model s with
  | Some pm => ret pm
  | None => raise AttributeError
  end.

(** The last branch of [add_jump] on a fitted session: when the two
    models hold different components, the newest jump of the pre-fit
    model is added to the post-fit model, unfrozen. *)
Definition mirror_newest_jump : M Session unit :=
  s <- get;;
  pm <- the_postfit_model;;
  pre <- component_of (prefit_model s);;
  post <- component_of pm;;
  if bool_decide (pre.1 ≠ post.1) then
    match last (jump_params pre.2) with
    | None => raise IndexError
    | Some p =>
        modify (fun s =>
          set_comps (<[post.1 := mkPhaseJump
                                   (jump_params post.2
                                    ++ [mkJumpParam (jid p) (jvalue p) false])]>
                       (comps s)) s)
    end
  else ret tt.

Definition add_jump (selected : list bool) : M Session retval :=
  s <- get;;
  match PhaseJump_at (prefit_model s) with
  | None =>
      let a := fresh (dom (comps s)) in
      modify (fun s => set_comps (<[a := mkPhaseJump []]> (comps s)) s);;;
      modify (fun s => set_prefit_model (mkModel (params (prefit_model s)) (Some a)) s);;;
      sel <- selected_flags selected;;
      s <- get;;
      ind <- add_jump_and_flags (prefit_model s) sel;;
      when (fitted s)
        (pm <- the_postfit_model;;
         modify (set_postfit_model (Some (mkModel (params pm) (Some a)))));;;
      ret (RName ind)
  | Some _ =>
      ac <- component_of (prefit_model s);;
      let numjumps := get_number_of_jumps ac.2 in
      if (numjumps =? 0)%nat then ret RNone
      else
        tb <- lift (need_table TypeError (all_toas s));;
        match matching_jump numjumps selected tb with
        | Some num =>
            delete_jump_and_flags (prefit_model s) true num;;;
            when (fitted s)
              (pm <- the_postfit_model;; delete_jump_and_flags pm false num);;;
            ret (RMask (toas_jumped_of num tb))
        | None =>
            sel <- selected_flags selected;;
            ind <- add_jump_and_flags (prefit_model s) sel;;
            when (fitted s) mirror_newest_jump;;;
            ret (RName ind)
        end
  end.


(** *** [Pulsar.fit] *)

(** [if not any(selected): selected = ~selected]. *)
Definition effective_selection (selected : list bool) : list bool :=
  if negb (any selected) then invert selected else selected.

(** [if self.fitted:] the last result becomes the baseline.  [fitted]
    is only ever set together with the post-fit attributes. *)
Definition promote : M Session unit :=
  s <- get;;
  match postfit_model s, postfit_resids s with
  | Some m, Some r =>
      modify (set_prefit_model m);;;
      modify (set_prefit_resids r)
  | _, _ => raise AttributeError
  end.

(** [self.postfit_model = fitter.model]: the fitter works on its own
    copy of the model, so the refined model is a new object with a jump
    component of its own. *)
Definition store_postfit (refined : ModelView) : M Session unit :=
  s <- get;;
  match refined.2 with
  | Some c =>
      let a := fresh (dom (comps s)) in
      modify (fun s => set_comps (<[a := c]> (comps s)) s);;;
      modify (set_postfit_model (Some (mkModel refined.1 (Some a))))
  | None => modify (set_postfit_model (Some (mkModel refined.1 None)))
  end.

(** The jump-stripped copy of a model: every [JUMP] parameter set to
    zero and frozen. *)
Definition no_jumps_view (mv : ModelView) : ModelView :=
  (mv.1,
   (fun c => mkPhaseJump ((fun p => mkJumpParam (jid p) 0 true) <$> jump_params c))
     <$> mv.2).

Definition Qltb (x y : Q) : bool := negb (Qle_bool y x).

(** The regime table: span of the selected TOAs in days to
    [(redge, ledge, npoints)]. *)
Definition regime (spanMJDs : Q) : Q * Q * nat :=
  if Qltb spanMJDs 30 then (4%Q, 4%Q, 400%nat)
  else if Qltb spanMJDs 90 then (2%Q, 2%Q, 300%nat)
  else if Qltb spanMJDs 200 then (1%Q, 1%Q, 300%nat)
  else if Qltb spanMJDs 400 then (0.5%Q, 0.5%Q, 200%nat)
  else (1.0%Q, 1.0%Q, 250%nat).

(** "Check to see if too recent".  A zero span divides by zero in the
    source and gives minus infinity, which the [max] turns into [0.0];
    the rational quotient by zero is [0], with the same outcome. *)
Definition cap_redge (nowish maxMJD spanMJDs redge : Q) : Q :=
  if Qltb nowish (maxMJD + spanMJDs * redge)%Q
  then Qmax ((nowish - maxMJD) / spanMJDs)%Q 0.0%Q
  else redge.

(** [a.min()] and [a.max()]; numpy raises on an empty array. *)
Definition array_min (a : list Q) : outcome Q :=
  match a with
  | [] => Raise ValueError
  | x :: a' => Ok (foldl Qmin x a')
  end.

Definition array_max (a : list Q) : outcome Q :=
  match a with
  | [] => Raise ValueError
  | x :: a' => Ok (foldl Qmax x a')
  end.

(** The synthetic baseline [(start, end, npoints)] handed to
    [make_fake_toas_uniform]; [now] is the reading of [Time.now().mjd]. *)
Definition random_baseline (now : Q) (selectedMJDs : list Q)
  : outcome (Q * Q * nat) :=
  minMJD ← array_min selectedMJDs;
  maxMJD ← array_max selectedMJDs;
  let spanMJDs := (maxMJD - minMJD)%Q in
  let '(redge, ledge, npoints) := regime spanMJDs in
  let nowish := (now - 40)%Q in
  let redge := cap_redge nowish maxMJD spanMJDs redge in
  Ok ((minMJD - spanMJDs * ledge)%Q, (maxMJD + spanMJDs * redge)%Q, npoints).

(** [np.where((mjds - t) >= 0)[0][0]]. *)
Fixpoint first_at_or_after (t : Q) (mjds : list Q) : outcome nat :=
  match mjds with
  | [] => Raise IndexError
  | x :: mjds' => if Qle_bool 0%Q (x - t)%Q then Ok 0%nat
                  else S <$> first_at_or_after t mjds'
  end.

(** The baseline mean [rs_mean] computed before the regime table: its
    value is overwritten in the re-centring loop, but computing it can
    raise. *)
Definition baseline_mean_check (no_jumps : list bool) (selectedMJDs : list Q)
  : M Session unit :=
  s <- get;;
  if forallb id no_jumps then
    q <- lift (get_mjds (all_toas s));;
    m <- lift (array_min selectedMJDs);;
    match filter (fun i => Qltb m i = true) q with
    | [] => raise IndexError
    | _ :: _ => ret tt
    end
  else
    n <- lift (ntoas (all_toas s));;
    if bool_decide (length no_jumps = n) then ret tt else raise IndexError.

(** [if compute_random:] *)
Definition compute_random_models (kind : Fitters) (refined : ModelView) (now : Q)
  : M Session unit :=
  s <- get;;
  sel_tb <- lift (need_table TypeError (selected_toas s));;
  let no_jumps := (fun r => negb (has_jump_key (flags r))) <$> rows sel_tb in
  let f_toas_sel := mkTOAs (Some (mkTable (colnames sel_tb) (select no_jumps (rows sel_tb)))) in
  selectedMJDs <- lift (get_mjds (selected_toas s));;
  baseline_mean_check no_jumps selectedMJDs;;;
  minMJD <- lift (array_min selectedMJDs);;
  maxMJD <- lift (array_max selectedMJDs);;
  b <- lift (random_baseline now selectedMJDs);;
  let f_toas := make_fake_toas_uniform b.1.1 b.1.2 b.2 refined in
  let rs := calculate_random_models kind f_toas_sel refined f_toas in
  start_index <- lift (first_at_or_after minMJD f_toas);;
  end_index <- lift (first_at_or_after maxMJD f_toas);;
  let recentre (r : list Q) :=
    let rs_mean := mean (take (end_index - start_index) (drop start_index r)) in
    (fun resid => (resid - rs_mean)%Q) <$> r in
  modify (set_random_resids (Some (recentre <$> rs)));;;
  modify (set_fake_toas (Some f_toas)).

(** [fit(selected, iters=1, compute_random=False)]; [now] is the clock
    reading that the random-model branch takes. *)
Definition fit (selected : list bool) (iters : nat) (compute_random : bool)
           (now : Q) : M Session unit :=
  let selected := effective_selection selected in
  s <- get;;
  when (fitted s) promote;;;
  s <- get;;
  let kind := fitter s in
  refined <- lift (fit_toas kind (selected_toas s) (view s (prefit_model s)));;
  store_postfit refined;;;
  modify (set_fitted true);;;
  modify (set_f (Some (mkFitterObj kind (selected_toas s) refined)));;;
  s <- get;;
  a <- lift (zero_column "delta_pulse_numbers" (all_toas s));;
  modify (set_all_toas a);;;
  b <- lift (zero_column "delta_pulse_number" (selected_toas s));;
  modify (set_selected_toas b);;;
  pm <- the_postfit_model;;
  compute_both pm;;;
  s <- get;;
  modify (set_postfit_resids (Some (Residuals (all_toas s) (view s pm) None)));;;
  modify (set_prefit_resids_no_jumps
            (Some (Residuals (all_toas s)
                     (no_jumps_view (view s (prefit_model s))) None)));;;
  when compute_random (compute_random_models kind refined now).


(** *** The resets *)

(** [self.prefit_model = pint.models.get_model(self.parfile)]: a new
    model object. *)
Definition load_prefit_model : M Session unit :=
  s <- get;;
  match get_model.2 with
  | Some c =>
      let a := fresh (dom (comps s)) in
      modify (fun s => set_comps (<[a := c]> (comps s)) s);;;
      modify (set_prefit_model (mkModel get_model.1 (Some a)))
  | None => modify (set_prefit_model (mkModel get_model.1 None))
  end.

Definition reset_model : M Session unit :=
  load_prefit_model;;;
  modify (set_postfit_model None);;;
  modify (set_postfit_resids None);;;
  modify (set_fitted false);;;
  update_resids.

Definition reset_TOAs : M Session unit :=
  modify (fun s => set_all_toas (get_TOAs (params (prefit_model s))) s);;;
  modify (fun s => set_selected_toas (all_toas s) s);;;
  modify (set_deleted ∅);;;
  modify (set_stashed None);;;
  update_resids.

Definition resetAll : M Session unit :=
  load_prefit_model;;;
  modify (set_postfit_model None);;;
  modify (set_postfit_resids None);;;
  modify (set_fitted false);;;
  modify (set_use_pulse_numbers false);;;
  reset_TOAs.

(** *** Sequences of session operations *)

(** The operations a caller can run on the session short of starting
    it over with [resetAll]. *)
Inductive command : Type :=
| Delete (indices : list Z) (selected : option (list bool))
| AddPhaseWrap (selected : list bool) (phase : Q)
| AddJump (selected : list bool)
| Fit (selected : list bool) (iters : nat) (compute_random : bool) (now : Q)
| UpdateResids
| ResetModel
| ResetTOAs.

Definition run_command (c : command) : M Session unit :=
  match c with
  | Delete indices selected => delete_TOAs indices selected;;; ret tt
  | AddPhaseWrap selected phase => add_phase_wrap selected phase
  | AddJump selected => add_jump selected;;; ret tt
  | Fit selected iters compute_random now => fit selected iters compute_random now
  | UpdateResids => update_resids
  | ResetModel => reset_model
  | ResetTOAs => reset_TOAs
  end.

(** The session after a list of commands; a command that raises leaves
    the session as it had mutated it, and the caller goes on. *)
Definition run_commands (cs : list command) (s : Session) : Session :=
  foldl (fun s c => exec (run_command c) s) s cs.

(** The session after a list of [delete_TOAs] calls. *)
Definition run_deletes (calls : list (list Z * option (list bool))) (s : Session)
  : Session :=
  foldl (fun s c => exec (delete_TOAs c.1 c.2) s) s calls.

(** *** Reading the session *)

(** The model and residuals a fit starts from: the last result once the
    session is fitted, the pre-fit pair before. *)
Definition fit_start (s : Session) : option (TimingModel * Resid) :=
  if fitted s then
    match postfit_model s, postfit_resids s with
    | Some m, Some r => Some (m, r)
    | _, _ => None
    end
  else Some (prefit_model s, prefit_resids s).

(** The rows of a TOA set; none when its table is [None]. *)
Definition live_rows (t : TOAs) : list Row :=
  match table t with
  | Some tb => rows tb
  | None => []
  end.

Definition live_indices (t : TOAs) : list Z := index <$> live_rows t.

(** A column of a TOA set, when the table has it. *)
Definition toas_column (name : string) (t : TOAs) : option (list (option Q)) :=
  match table t with
  | Some tb => if has_col name tb then Some (column name tb) else None
  | None => None
  end.

(** *** Properties kept by every step *)

(** [m] keeps [P]: when [P] holds before, it holds in the session that
    [m] leaves behind, returned or raised. *)
Definition preserves {A} (P : Session -> Prop) (m : M Session A) : Prop :=
  forall s, P s -> P (exec m s).

(** Pulse-number tracking is on. *)
Definition tracking (s : Session) : Prop := use_pulse_numbers s = true.

(** *** What [_delete_TOAs] computes *)

(** The table [_delete_TOAs] returns for table [t] when [D] is the
    deleted set; [None] when no row is left. *)
Definition delete_result (D : gset Z) (t : Table) : option Table :=
  let del_inds := del_inds_of D t in
  if (count_true del_inds <? table_len t)%nat
  then Some (group_by_obs (mkTable (colnames t) (select (invert del_inds) (rows t))))
  else None.

(** The rows of [t] whose index is not in [D], in table order. *)
Definition kept (D : gset Z) (t : Table) : list Row :=
  filter (fun r => index r ∉ D) (rows t).

(** A TOA set has no index twice and none of the deleted ones. *)
Definition toas_ok (D : gset Z) (t : TOAs) : Prop :=
  NoDup (live_indices t) /\ forall i, i ∈ live_indices t -> i ∉ D.

(** The identity invariant of the session. *)
Definition identity_ok (s : Session) : Prop :=
  toas_ok (deleted s) (all_toas s) /\
  toas_ok (deleted s) (selected_toas s) /\
  (table (selected_toas s) = None -> table (all_toas s) = None).

(** Session [s] descends from [s0] by deletions: its TOAs are TOAs of
    [s0], unchanged, and its deleted set has only grown. *)
Definition descends (s0 s : Session) : Prop :=
  (forall r, r ∈ live_rows (all_toas s) -> r ∈ live_rows (all_toas s0)) /\
  (forall r, r ∈ live_rows (selected_toas s) ->
             r ∈ live_rows (all_toas s0) \/ r ∈ live_rows (selected_toas s0)) /\
  deleted s0 ⊆ deleted s.

(** One step of the loop of [_delete_TOAs]. *)
Definition mark_step (col : list Z) (del_inds : list bool) (ii : Z) : list bool :=
  match first_pos ii col with
  | Some p => mark p del_inds
  | None => del_inds
  end.

(** The session after the three assignments that open [delete_TOAs]. *)
Definition deleted_both (indices : list Z) (A S : Table) (s : Session) : Session :=
  let D := deleted s ∪ list_to_set indices in
  set_all_toas (mkTOAs (delete_result D A))
    (set_selected_toas (mkTOAs (delete_result D S)) (set_deleted D s)).

(** *** Frames *)

(** The attributes that neither [delete_TOAs] nor the head of
    [reset_TOAs] assigns.  The fitter object [self.f] is left out: it
    holds the selected TOA object of the last fit, whose table
    [delete_TOAs] replaces. *)
Definition same_fit (s0 s : Session) : Prop :=
  comps s = comps s0 /\ prefit_model s = prefit_model s0 /\
  postfit_model s = postfit_model s0 /\ prefit_resids s = prefit_resids s0 /\
  postfit_resids s = postfit_resids s0 /\ fitter s = fitter s0 /\
  fitted s = fitted s0 /\ use_pulse_numbers s = use_pulse_numbers s0 /\
  prefit_resids_no_jumps s = prefit_resids_no_jumps s0 /\
  random_resids s = random_resids s0 /\ fake_toas s = fake_toas s0.

(** The session without its fitter object. *)
Definition without_f (s : Session) : Session := set_f None s.

(** What [add_jump] cannot reach. *)
Definition jump_frame (s0 s : Session) : Prop :=
  prefit_resids s = prefit_resids s0 /\ postfit_resids s = postfit_resids s0 /\
  fitted s = fitted s0 /\ use_pulse_numbers s = use_pulse_numbers s0 /\
  deleted s = deleted s0 /\
  live_indices (all_toas s) = live_indices (all_toas s0).

End Definitions.

(** ** A small concrete instance

    The collaborators of a toy pulsar, to run the session on concrete
    inputs: the model payload is one rational (a spin frequency), a
    residual set is the list of the per-TOA residuals, the fit strategy
    nudges the frequency and fails on an empty TOA set (a singular
    system). *)

Module Demo.

Definition delta_of (r : Row) : Q :=
  default 0%Q (cells r !! "delta_pulse_number").

Definition demo_residuals (t : TOAs) (mv : Q * option PhaseJump)
           (track_mode : option string) : list Q :=
  match table t with
  | Some tb =>
      (fun r => match track_mode with
                | Some _ => (mjd r * mv.1 + delta_of r)%Q
                | None => (mjd r * mv.1)%Q
                end) <$> rows tb
  | None => []
  end.

Definition demo_fit (kind : Fitters) (t : TOAs) (mv : Q * option PhaseJump)
  : outcome (Q * option PhaseJump) :=
  match table t with
  | Some tb => if (table_len tb =? 0)%nat then Raise FitError
               else Ok ((mv.1 + 1)%Q, mv.2)
  | None => Raise FitError
  end.

Definition demo_fake (lo hi : Q) (n : nat) (mv : Q * option PhaseJump) : list Q :=
  [lo; hi].

#[export] Instance demo : Externals := {|
  Params := Q;
  Resid := list Q;
  Residuals := demo_residuals;
  fit_toas := demo_fit;
  pulse_number := fun mv r => (mjd r * mv.1)%Q;
  make_fake_toas_uniform := demo_fake;
  calculate_random_models := fun _ _ _ mjds => [mjds];
  mean := fun l => foldr Qplus 0%Q l;
  get_model := (1%Q, None);
  get_TOAs := fun _ => mkTOAs None;
|}.

Definition toa (i : Z) (o : string) (t : Q) : Row :=
  mkRow i o t (mkFlags ∅ ∅) ∅.

(** Five TOAs of one observatory, indices 0 to 4. *)
Definition five : Table :=
  mkTable [] [toa 0 "gbt" 10; toa 1 "gbt" 11; toa 2 "gbt" 12;
              toa 3 "gbt" 13; toa 4 "gbt" 14].

(** A session as [__init__] leaves it, on a given table. *)
Definition fresh_session (tb : Table) : Session :=
  mkSession ∅ (mkModel (1%Q : Params) None) None
            (Residuals (mkTOAs (Some tb)) (1%Q, None) None) None
            (mkTOAs (Some tb)) (mkTOAs (Some tb)) ∅ None WLS false false
            None None None None.

Definition all_true (n : nat) : list bool := replicate n true.

(** One fit of all five TOAs, then the deletion of TOA 0 with a mask
    that selects TOA 4 only: the rebuilt selection is empty. *)
Definition fitted_then_emptied : Session :=
  run_commands [Fit (all_true 5) 1 false 0;
                Delete [0%Z] (Some [false; false; false; false; true])]
               (fresh_session five).

(** A fresh session on which TOA 0 was given one phase wrap. *)
Definition wrapped : Session :=
  exec (add_phase_wrap [true; false; false; false; false] 1) (fresh_session five).

(** Ten TOAs of two observatories, indices 0 to 9, grouped by
    observatory as a loaded table is. *)
Definition ten : Table :=
  mkTable [] [toa 0 "ao" 10; toa 1 "ao" 11; toa 2 "ao" 12; toa 3 "ao" 13;
              toa 4 "ao" 14; toa 5 "gbt" 15; toa 6 "gbt" 16; toa 7 "gbt" 17;
              toa 8 "gbt" 18; toa 9 "gbt" 19].

(** The mask that selects the last of five TOAs, and a session on
    [five] whose selected set is that TOA. *)
Definition only_last : list bool := [false; false; false; false; true].

Definition last_selected : Session :=
  set_selected_toas
    (mkTOAs (Some (mkTable (colnames five) (select only_last (rows five)))))
    (fresh_session five).

(** The same collaborators with a TOA file that holds [five]. *)
Definition demo_loaded : Externals := {|
  Params := Q;
  Resid := list Q;
  Residuals := demo_residuals;
  fit_toas := demo_fit;
  pulse_number := fun mv r => (mjd r * mv.1)%Q;
  make_fake_toas_uniform := demo_fake;
  calculate_random_models := fun _ _ _ mjds => [mjds];
  mean := fun l => foldr Qplus 0%Q l;
  get_model := (1%Q, None);
  get_TOAs := fun _ => mkTOAs (Some five);
|}.

(** A session left in pieces: both tables gone, and marked as fitted
    without a post-fit model. *)
Definition broken : @Session demo_loaded :=
  @mkSession demo_loaded ∅ (@mkModel demo_loaded 7%Q None) None [] None
             (mkTOAs None) (mkTOAs None) {[0%Z]} None WLS true true
             None None None None.

(** A fresh session on which TOAs 0 and 1 were jumped together. *)
Definition jumped : Session :=
  exec (add_jump [true; true; false; false; false]) (fresh_session five).

(** A fresh session after an [add_jump] with a mask of one entry. *)
Definition stranded : Session :=
  exec (add_jump [true]) (fresh_session five).

End Demo.

(** * Properties *)

Section Theorems.
Context `{E : Externals}.

(** ** The monad *)

Lemma bind_ok {A B} (m : M Session A) (k : A -> M Session B) s s1 a :
  m s = (s1, Ok a) -> bind m k s = k a s1.
Proof. intros H. unfold bind. now rewrite H. Qed.

Lemma bind_raise {A B} (m : M Session A) (k : A -> M Session B) s s1 e :
  m s = (s1, Raise e) -> bind m k s = (s1, Raise e).
Proof. intros H. unfold bind. now rewrite H. Qed.

(** ** The regime table and the forward cap *)

Lemma Qltb_lt (x y : Q) : Qltb x y = true <-> (x < y)%Q.
Proof.
  unfold Qltb. rewrite negb_true_iff. split.
  - intros H. apply Qnot_le_lt. intros Hle.
    apply Qle_bool_iff in Hle. congruence.
  - intros H. destruct (Qle_bool y x) eqn:Hb; [|reflexivity].
    apply Qle_bool_iff in Hb. exfalso. eapply Qlt_not_le; eauto.
Qed.

Lemma Qltb_ge (x y : Q) : Qltb x y = false <-> (y <= x)%Q.
Proof.
  unfold Qltb. rewrite negb_false_iff. apply Qle_bool_iff.
Qed.

Ltac regime_cases :=
  unfold regime;
  repeat match goal with
    | |- context [Qltb ?x ?y] =>
        let Hb := fresh "Hb" in
        destruct (Qltb x y) eqn:Hb;
        [apply Qltb_lt in Hb | apply Qltb_ge in Hb]
    end;
  try reflexivity; try (exfalso; lra).

(** C7.  The regime table of the random-model baseline: the span of the
    selected TOAs, in days, selects the edge-extension factors and the
    number of synthetic points by the fixed thresholds 30, 90, 200 and
    400; the left and the right factor it gives are the same; a span of
    20 days gives [redge = ledge = 4] and [npoints = 400]. *)
Theorem regime_thresholds (spanMJDs : Q) :
  ((spanMJDs < 30)%Q -> regime spanMJDs = (4%Q, 4%Q, 400%nat)) /\
  ((30 <= spanMJDs)%Q -> (spanMJDs < 90)%Q ->
   regime spanMJDs = (2%Q, 2%Q, 300%nat)) /\
  ((90 <= spanMJDs)%Q -> (spanMJDs < 200)%Q ->
   regime spanMJDs = (1%Q, 1%Q, 300%nat)) /\
  ((200 <= spanMJDs)%Q -> (spanMJDs < 400)%Q ->
   regime spanMJDs = (0.5%Q, 0.5%Q, 200%nat)) /\
  ((400 <= spanMJDs)%Q -> regime spanMJDs = (1.0%Q, 1.0%Q, 250%nat)) /\
  (regime spanMJDs).1.1 = (regime spanMJDs).1.2 /\
  regime 20 = (4%Q, 4%Q, 400%nat).
Proof.
  repeat split; try intros H1; try intros H2; regime_cases.
Qed.

Lemma foldl_Qmin_le (a : list Q) (x : Q) : (foldl Qmin x a <= x)%Q.
Proof.
  revert x. induction a as [|y a IH]; intros x; simpl.
  - apply Qle_refl.
  - eapply Qle_trans; [apply IH | apply Q.le_min_l].
Qed.

Lemma foldl_Qmax_ge (a : list Q) (x : Q) : (x <= foldl Qmax x a)%Q.
Proof.
  revert x. induction a as [|y a IH]; intros x; simpl.
  - apply Qle_refl.
  - eapply Qle_trans; [apply Q.le_max_l | apply IH].
Qed.

Lemma array_min_le_max (a : list Q) (lo hi : Q) :
  array_min a = Ok lo -> array_max a = Ok hi -> (lo <= hi)%Q.
Proof.
  destruct a as [|x a]; simpl; [discriminate|].
  intros [= <-] [= <-].
  eapply Qle_trans; [apply foldl_Qmin_le | apply foldl_Qmax_ge].
Qed.

Lemma regime_factor_pos (spanMJDs : Q) : (0 < (regime spanMJDs).1.1)%Q.
Proof. regime_cases; reflexivity. Qed.

Lemma cap_redge_nonneg (nowish maxMJD spanMJDs redge : Q) :
  (0 <= redge)%Q -> (0 <= cap_redge nowish maxMJD spanMJDs redge)%Q.
Proof.
  intros Hr. unfold cap_redge.
  destruct (Qltb _ _); [|exact Hr].
  eapply Qle_trans; [|apply Q.le_max_r]. discriminate.
Qed.

Lemma cap_redge_old_data (nowish maxMJD spanMJDs redge : Q) :
  (0 <= spanMJDs)%Q -> (maxMJD <= nowish)%Q ->
  (maxMJD + spanMJDs * cap_redge nowish maxMJD spanMJDs redge <= nowish)%Q.
Proof.
  intros Hs Hm. unfold cap_redge.
  destruct (Qltb _ _) eqn:Hc.
  - apply Qltb_lt in Hc.
    assert (Hpos : (0 < spanMJDs)%Q).
    { destruct (Qlt_le_dec 0 spanMJDs) as [|Hle]; [assumption|].
      assert (Hz : spanMJDs == 0) by (apply Qle_antisym; assumption).
      rewrite Hz in Hc. exfalso. lra. }
    assert (Hq : (0 <= (nowish - maxMJD) / spanMJDs)%Q).
    { apply Qle_shift_div_l; [assumption|]. lra. }
    rewrite Q.max_l by (eapply Qle_trans; [|exact Hq]; discriminate).
    assert (Heq : maxMJD + spanMJDs * ((nowish - maxMJD) / spanMJDs) == nowish).
    { field. intros Hz. rewrite Hz in Hpos. lra. }
    rewrite Heq. apply Qle_refl.
  - apply Qltb_ge in Hc. exact Hc.
Qed.

Lemma cap_redge_recent_data (nowish maxMJD spanMJDs redge : Q) :
  (0 <= spanMJDs)%Q -> (0 <= redge)%Q -> (nowish < maxMJD)%Q ->
  cap_redge nowish maxMJD spanMJDs redge == 0.
Proof.
  intros Hs Hr Hm. unfold cap_redge.
  destruct (Qltb _ _) eqn:Hc.
  - assert (Hq : ((nowish - maxMJD) / spanMJDs <= 0)%Q).
    { destruct (Qlt_le_dec 0 spanMJDs) as [Hpos|Hle].
      - apply Qle_shift_div_r; [assumption|]. lra.
      - assert (Hz : spanMJDs == 0) by (apply Qle_antisym; assumption).
        unfold Qdiv. rewrite Hz.
        assert (Hinv : / 0 == 0) by reflexivity.
        rewrite Hinv. lra. }
    rewrite Q.max_r by (eapply Qle_trans; [exact Hq|]; discriminate).
    reflexivity.
  - apply Qltb_ge in Hc. exfalso. nra.
Qed.

(** C8, as the code has it.  The forward extension factor is never
    negative.  When the newest selected TOA is not later than 40 days
    before [now], the synthetic baseline ends at or before that day;
    when the newest selected TOA is later than that, the factor is
    clamped to zero and the baseline ends at the newest selected TOA. *)
Theorem forward_cap (now : Q) (selectedMJDs : list Q) (minMJD maxMJD : Q) :
  array_min selectedMJDs = Ok minMJD ->
  array_max selectedMJDs = Ok maxMJD ->
  let spanMJDs := (maxMJD - minMJD)%Q in
  let nowish := (now - 40)%Q in
  let redge := cap_redge nowish maxMJD spanMJDs (regime spanMJDs).1.1 in
  random_baseline now selectedMJDs
  = Ok ((minMJD - spanMJDs * (regime spanMJDs).1.2)%Q,
        (maxMJD + spanMJDs * redge)%Q,
        (regime spanMJDs).2) /\
  (0 <= redge)%Q /\
  ((maxMJD <= nowish)%Q -> (maxMJD + spanMJDs * redge <= nowish)%Q) /\
  ((nowish < maxMJD)%Q -> maxMJD + spanMJDs * redge == maxMJD).
Proof.
  intros Hmin Hmax spanMJDs nowish redge.
  assert (Hspan : (0 <= spanMJDs)%Q).
  { pose proof (array_min_le_max _ _ _ Hmin Hmax). unfold spanMJDs. lra. }
  pose proof (regime_factor_pos spanMJDs) as Hpos.
  repeat split.
  - unfold random_baseline. rewrite Hmin, Hmax. simpl.
    fold spanMJDs. destruct (regime spanMJDs) as [[r l] n]. reflexivity.
  - apply cap_redge_nonneg. lra.
  - intros Hold. apply cap_redge_old_data; assumption.
  - intros Hrecent. unfold redge.
    rewrite (cap_redge_recent_data nowish maxMJD spanMJDs) by (assumption || lra).
    lra.
Qed.

(** ** Fitting *)

Lemma promote_ok (s : Session) (m : TimingModel) (r : Resid) :
  postfit_model s = Some m -> postfit_resids s = Some r ->
  promote s = (set_prefit_resids r (set_prefit_model m s), Ok tt).
Proof.
  intros Hm Hr. unfold promote, bind, get, modify. simpl.
  rewrite Hm, Hr. reflexivity.
Qed.

Lemma view_set_prefit (s : Session) (m m' : TimingModel) (r : Resid) :
  view (set_prefit_resids r (set_prefit_model m' s)) m = view s m.
Proof. reflexivity. Qed.

(** C1, as the code has it.  When the Fit Strategy fails, the error
    reaches the caller and everything but the pre-fit pair is as before
    the call: the fitted flag, the post-fit model and residuals, both TOA
    sets with their pulse-number columns, the deleted set and the
    tracking mode.  On an unfitted session the pre-fit pair is unchanged
    too; on a fitted session the promotion of step 2 stays committed, so
    the pre-fit model and residuals are now the former post-fit ones. *)
Theorem fit_failure_state (sel : list bool) (iters : nat) (cr : bool) (now : Q)
        (s : Session) (m : TimingModel) (r : Resid) (e : exn) :
  fit_start s = Some (m, r) ->
  fit_toas (fitter s) (selected_toas s) (view s m) = Raise e ->
  let s' := exec (fit sel iters cr now) s in
  result (fit sel iters cr now) s = Raise e /\
  prefit_model s' = m /\ prefit_resids s' = r /\
  (fitted s = false -> prefit_model s' = prefit_model s
                       /\ prefit_resids s' = prefit_resids s) /\
  fitted s' = fitted s /\
  postfit_model s' = postfit_model s /\
  postfit_resids s' = postfit_resids s /\
  all_toas s' = all_toas s /\
  selected_toas s' = selected_toas s /\
  deleted s' = deleted s /\
  stashed s' = stashed s /\
  use_pulse_numbers s' = use_pulse_numbers s /\
  comps s' = comps s.
Proof.
  intros Hstart Hfail. unfold fit_start in Hstart.
  unfold exec, result, fit, bind, get, when.
  destruct (fitted s) eqn:Hf.
  - destruct (postfit_model s) as [m0|] eqn:Hm; [|discriminate].
    destruct (postfit_resids s) as [r0|] eqn:Hr; [|discriminate].
    injection Hstart as -> ->.
    rewrite (promote_ok s m r Hm Hr). unfold lift. simpl.
    rewrite view_set_prefit, Hfail. simpl.
    repeat split; try assumption; try discriminate; auto.
  - injection Hstart as <- <-. unfold ret, lift. simpl.
    rewrite Hfail. simpl. repeat split; auto.
Qed.


(** ** Columns of a table *)

Lemma has_col_assign_same (name : string) (g : Row -> Q) (t : Table) :
  has_col name (assign_col name g t) = true.
Proof.
  unfold assign_col. destruct (has_col name t) eqn:Hin.
  - exact Hin.
  - unfold has_col. simpl. apply bool_decide_eq_true. apply elem_of_app. right.
    apply list_elem_of_singleton. reflexivity.
Qed.

Lemma has_col_assign_other (name name' : string) (g : Row -> Q) (t : Table) :
  name <> name' -> has_col name (assign_col name' g t) = has_col name t.
Proof.
  intros Hne. unfold assign_col. destruct (has_col name' t); [reflexivity|].
  unfold has_col. simpl. apply bool_decide_ext. rewrite elem_of_app, list_elem_of_singleton. tauto.
Qed.

Lemma column_assign_same (name : string) (g : Row -> Q) (t : Table) :
  column name (assign_col name g t) = (fun r => Some (g r)) <$> rows t.
Proof.
  unfold column, assign_col. simpl. rewrite map_map.
  apply map_ext. intros r. simpl. apply lookup_insert_eq.
Qed.

Lemma column_assign_other (name name' : string) (g : Row -> Q) (t : Table) :
  name <> name' -> column name (assign_col name' g t) = column name t.
Proof.
  intros Hne. unfold column, assign_col. simpl. rewrite map_map.
  apply map_ext. intros r. simpl. apply lookup_insert_ne. congruence.
Qed.

Lemma table_len_assign (name : string) (g : Row -> Q) (t : Table) :
  table_len (assign_col name g t) = table_len t.
Proof. unfold table_len, assign_col. simpl. apply length_map. Qed.

Lemma map_const_replicate {A B} (b : B) (l : list A) :
  (fun _ => b) <$> l = replicate (length l) b.
Proof. induction l as [|x l IH]; simpl; [reflexivity|]. now rewrite <- IH. Qed.
(** ** What a fit that returns has done *)

Lemma the_postfit_model_inv s s' pm :
  the_postfit_model s = (s', Ok pm) -> s' = s /\ postfit_model s = Some pm.
Proof.
  unfold the_postfit_model, bind, get, ret, raise.
  destruct (postfit_model s); intros [= <- <-]; auto.
Qed.

Lemma compute_both_inv m s s' :
  compute_both m s = (s', Ok tt) ->
  exists ta tb,
    compute_pulse_numbers (view s m) (all_toas s) = Ok ta /\
    compute_pulse_numbers (view s m) (selected_toas s) = Ok tb /\
    s' = set_selected_toas tb (set_all_toas ta s).
Proof.
  unfold compute_both, bind, get, lift, modify.
  destruct (compute_pulse_numbers (view s m) (all_toas s)) as [ta|]; [|discriminate].
  simpl.
  destruct (compute_pulse_numbers (view s m) (selected_toas s)) as [tb|]; [|discriminate].
  intros [= <-]. eauto.
Qed.

Lemma baseline_mean_check_state nj mj s s' o :
  baseline_mean_check nj mj s = (s', o) -> s' = s.
Proof.
  unfold baseline_mean_check, bind, get, lift, ret, raise.
  repeat match goal with
  | |- context [match ?x with _ => _ end] => destruct x
  end; intros [= <- <-]; reflexivity.
Qed.

Lemma compute_random_models_frame kind refined now s s' o :
  compute_random_models kind refined now s = (s', o) ->
  all_toas s' = all_toas s /\ selected_toas s' = selected_toas s /\
  postfit_model s' = postfit_model s /\ postfit_resids s' = postfit_resids s /\
  prefit_model s' = prefit_model s /\ prefit_resids s' = prefit_resids s /\
  fitted s' = fitted s /\ use_pulse_numbers s' = use_pulse_numbers s /\
  comps s' = comps s /\ deleted s' = deleted s.
Proof.
  unfold compute_random_models, bind, get, lift, modify.
  destruct (need_table TypeError (selected_toas s)) as [tb|]; simpl;
    [|intros [= <- <-]; repeat split; reflexivity].
  destruct (get_mjds (selected_toas s)) as [mj|]; simpl;
    [|intros [= <- <-]; repeat split; reflexivity].
  destruct (baseline_mean_check _ mj s) as [s0 o0] eqn:Hb.
  apply baseline_mean_check_state in Hb. subst s0.
  repeat match goal with
  | |- context [match ?x with _ => _ end] => destruct x; simpl
  end; intros [= <- <-]; repeat split; reflexivity.
Qed.

Lemma store_postfit_inv refined s s' o :
  store_postfit refined s = (s', o) ->
  o = Ok tt /\
  (exists pm, postfit_model s' = Some pm /\ params pm = refined.1) /\
  all_toas s' = all_toas s /\ selected_toas s' = selected_toas s /\
  postfit_resids s' = postfit_resids s /\
  prefit_model s' = prefit_model s /\ prefit_resids s' = prefit_resids s /\
  fitted s' = fitted s /\ use_pulse_numbers s' = use_pulse_numbers s /\
  deleted s' = deleted s /\ fitter s' = fitter s.
Proof.
  unfold store_postfit, bind, get, modify.
  destruct refined.2; simpl; intros [= <- <-]; repeat split; eauto.
Qed.

Lemma zero_column_inv name t t' :
  zero_column name t = Ok t' ->
  exists tb, table t = Some tb /\
             t' = mkTOAs (Some (assign_col name (fun _ => 0%Q) tb)).
Proof.
  unfold zero_column, ntoas, need_table, assign_zeros.
  destruct (table t) as [tb|]; simpl; [|discriminate].
  rewrite bool_decide_eq_true_2 by reflexivity. simpl.
  intros [= <-]. eauto.
Qed.

Lemma compute_pulse_numbers_inv mv t t' :
  compute_pulse_numbers mv t = Ok t' ->
  exists tb, table t = Some tb /\
             t' = mkTOAs (Some (assign_col "pulse_number" (pulse_number mv) tb)).
Proof.
  unfold compute_pulse_numbers, need_table.
  destruct (table t) as [tb|]; simpl; [|discriminate].
  intros [= <-]. eauto.
Qed.

(** What a fit that returns has done to the session. *)
Lemma fit_ok_inv sel iters cr now s s' :
  fit sel iters cr now s = (s', Ok tt) ->
  exists (pm : TimingModel) (tb tbs : Table) (mv : ModelView),
    table (all_toas s) = Some tb /\
    table (selected_toas s) = Some tbs /\
    table (all_toas s')
    = Some (assign_col "pulse_number" (pulse_number mv)
              (assign_col "delta_pulse_numbers" (fun _ => 0%Q) tb)) /\
    table (selected_toas s')
    = Some (assign_col "pulse_number" (pulse_number mv)
              (assign_col "delta_pulse_number" (fun _ => 0%Q) tbs)) /\
    postfit_model s' = Some pm /\
    postfit_resids s' = Some (Residuals (all_toas s') (view s' pm) None) /\
    fitted s' = true /\
    use_pulse_numbers s' = use_pulse_numbers s /\
    deleted s' = deleted s.
Proof.
  unfold fit, bind, get, when, lift, modify.
  destruct ((if fitted s then promote else ret tt) s) as [s0 o0] eqn:Hp.
  assert (Hs0 : all_toas s0 = all_toas s /\ selected_toas s0 = selected_toas s /\
                use_pulse_numbers s0 = use_pulse_numbers s /\ deleted s0 = deleted s).
  { destruct (fitted s).
    - unfold promote, bind, get, modify, raise in Hp.
      destruct (postfit_model s), (postfit_resids s); simpl in Hp;
        injection Hp as <- <-; repeat split; reflexivity.
    - injection Hp as <- <-. repeat split; reflexivity. }
  destruct Hs0 as (Ha0 & Hs0 & Hu0 & Hd0).
  destruct o0; [|discriminate].
  destruct (fit_toas _ _ _) as [refined|]; [|discriminate]. simpl.
  destruct (store_postfit refined s0) as [s1 o1] eqn:Hst.
  apply store_postfit_inv in Hst.
  destruct Hst as (-> & _ & Ha1 & Hs1 & _ & _ & _ & _ & Hu1 & Hd1 & _).
  simpl.
  destruct (zero_column "delta_pulse_numbers" _) as [ta|] eqn:Hza; [|discriminate].
  simpl.
  destruct (zero_column "delta_pulse_number" _) as [tb|] eqn:Hzb; [|discriminate].
  simpl in Hza, Hzb. simpl.
  destruct (the_postfit_model _) as [s2 o2] eqn:Hpm.
  destruct o2 as [pm|]; [|discriminate].
  apply the_postfit_model_inv in Hpm. destruct Hpm as [-> Hpm].
  destruct (compute_both pm _) as [s3 o3] eqn:Hcb.
  destruct o3 as [[]|]; [|discriminate].
  apply compute_both_inv in Hcb.
  destruct Hcb as (ta' & tb' & Hca & Hcb & ->).
  simpl in Hca, Hcb.
  apply zero_column_inv in Hza, Hzb.
  destruct Hza as (tba & Hta & ->). destruct Hzb as (tbb & Htb & ->).
  apply compute_pulse_numbers_inv in Hca, Hcb.
  destruct Hca as (? & [= <-] & ->). destruct Hcb as (? & [= <-] & ->).
  intros Hr.
  match type of Hr with ?m ?x = _ =>
    assert (Hfr : all_toas s' = all_toas x /\ selected_toas s' = selected_toas x /\
                  postfit_model s' = postfit_model x /\
                  postfit_resids s' = postfit_resids x /\
                  fitted s' = fitted x /\ use_pulse_numbers s' = use_pulse_numbers x /\
                  comps s' = comps x /\ deleted s' = deleted x)
  end.
  { destruct cr.
    - apply compute_random_models_frame in Hr. tauto.
    - injection Hr as <-. repeat split; reflexivity. }
  destruct Hfr as (Ha & Hs & Hm & Hrs & Hf & Hu & Hc & Hd).
  simpl in *.
  rewrite Ha1, Ha0 in Hta. rewrite Hs1, Hs0 in Htb.
  exists pm, tba, tbb, (view s1 pm).
  assert (Hv : view s' pm = view s1 pm).
  { unfold view. rewrite Hc. reflexivity. }
  repeat split.
  - exact Hta.
  - exact Htb.
  - rewrite Ha. reflexivity.
  - rewrite Hs. reflexivity.
  - rewrite Hm. exact Hpm.
  - rewrite Hrs, Ha, Hv. reflexivity.
  - rewrite Hf. reflexivity.
  - rewrite Hu. simpl. congruence.
  - rewrite Hd. simpl. congruence.
Qed.

Lemma update_resids_prefit (s : Session) :
  prefit_resids (exec update_resids s)
  = Residuals (all_toas s) (view s (prefit_model s)) (track_mode_of s).
Proof.
  unfold exec, update_resids, bind, get, modify, ret, raise. simpl.
  destruct (fitted s); [|reflexivity].
  destruct (postfit_model s); reflexivity.
Qed.

Lemma any_replicate_false (n : nat) : any (replicate n false) = false.
Proof. induction n as [|n IH]; [reflexivity|exact IH]. Qed.

Lemma invert_replicate_false (n : nat) :
  invert (replicate n false) = replicate n true.
Proof.
  unfold invert. induction n as [|n IH]; simpl; [reflexivity|]. now rewrite IH.
Qed.

(** C3.  A fit called with an all-false mask is a fit of everything: the
    mask is turned into the all-true mask, the call leaves the same
    session and the same outcome as the call with the explicit all-true
    mask, and when it returns the post-fit residuals are those of the
    full TOA set under the post-fit model. *)
Theorem fit_empty_selection (n iters : nat) (cr : bool) (now : Q) (s : Session) :
  effective_selection (replicate n false) = replicate n true /\
  fit (replicate n false) iters cr now s = fit (replicate n true) iters cr now s /\
  (forall s', fit (replicate n false) iters cr now s = (s', Ok tt) ->
              exists pm, postfit_model s' = Some pm /\
                         postfit_resids s'
                         = Some (Residuals (all_toas s') (view s' pm) None)).
Proof.
  split; [|split].
  - unfold effective_selection. rewrite any_replicate_false. simpl.
    apply invert_replicate_false.
  - reflexivity.
  - intros s' Hfit. apply fit_ok_inv in Hfit.
    destruct Hfit as (pm & _ & _ & _ & _ & _ & _ & _ & Hpm & Hres & _).
    exists pm. split; assumption.
Qed.

(** C10.  After a fit that returns, the [delta_pulse_number] column of
    the selected TOA set is all zeros, while that column of the full TOA
    set is what it was before the fit, present or not and value by
    value: the zeros meant for it went to a column named
    [delta_pulse_numbers].  The tracking mode is unchanged, so residuals
    recomputed afterwards are evaluated, in that mode, on a full TOA set
    that still carries the phase wraps. *)
Theorem fit_leaves_full_delta (sel : list bool) (iters : nat) (cr : bool) (now : Q)
        (s s' : Session) :
  fit sel iters cr now s = (s', Ok tt) ->
  exists tb tb' tbs',
    table (all_toas s) = Some tb /\
    table (all_toas s') = Some tb' /\
    table (selected_toas s') = Some tbs' /\
    has_col "delta_pulse_number" tbs' = true /\
    column "delta_pulse_number" tbs' = replicate (table_len tbs') (Some 0%Q) /\
    has_col "delta_pulse_number" tb' = has_col "delta_pulse_number" tb /\
    column "delta_pulse_number" tb' = column "delta_pulse_number" tb /\
    has_col "delta_pulse_numbers" tb' = true /\
    column "delta_pulse_numbers" tb' = replicate (table_len tb') (Some 0%Q) /\
    use_pulse_numbers s' = use_pulse_numbers s /\
    prefit_resids (exec update_resids s')
    = Residuals (all_toas s') (view s' (prefit_model s')) (track_mode_of s).
Proof.
  intros Hfit. apply fit_ok_inv in Hfit.
  destruct Hfit as (pm & tb & tbs & mv & Htb & Htbs & Htb' & Htbs' & _ & _ & _ & Hu & _).
  eexists tb, _, _. split; [exact Htb|]. split; [exact Htb'|]. split; [exact Htbs'|].
  repeat split.
  - rewrite has_col_assign_other by discriminate. apply has_col_assign_same.
  - rewrite column_assign_other by discriminate.
    rewrite column_assign_same, !table_len_assign. apply map_const_replicate.
  - now rewrite !has_col_assign_other by discriminate.
  - now rewrite !column_assign_other by discriminate.
  - rewrite has_col_assign_other by discriminate. apply has_col_assign_same.
  - rewrite column_assign_other by discriminate.
    rewrite column_assign_same, !table_len_assign. apply map_const_replicate.
  - exact Hu.
  - rewrite update_resids_prefit. unfold track_mode_of. now rewrite Hu.
Qed.

Lemma run_ok {A} (m : M Session A) (s : Session) (a : A) :
  result m s = Ok a -> m s = (exec m s, Ok a).
Proof.
  unfold result, exec. destruct (m s) as [s' o]. simpl. now intros ->.
Qed.

(** ** Properties kept by every step *)

Section Preserves.
Variable P : Session -> Prop.

Lemma preserves_ret {A} (a : A) : preserves P (ret a).
Proof. intros s H. exact H. Qed.

Lemma preserves_raise {A} (e : exn) : preserves P (raise (A := A) e).
Proof. intros s H. exact H. Qed.

Lemma preserves_get : preserves P get.
Proof. intros s H. exact H. Qed.

Lemma preserves_lift {A} (o : outcome A) : preserves P (lift o).
Proof. intros s H. exact H. Qed.

Lemma preserves_modify (g : Session -> Session) :
  (forall s, P s -> P (g s)) -> preserves P (modify g).
Proof. intros Hg s H. apply Hg, H. Qed.

Lemma preserves_bind {A B} (m : M Session A) (k : A -> M Session B) :
  preserves P m -> (forall a, preserves P (k a)) -> preserves P (bind m k).
Proof.
  intros Hm Hk s H. specialize (Hm s H). unfold exec, bind in *.
  destruct (m s) as [s1 [a|e]]; simpl in *.
  - apply Hk, Hm.
  - exact Hm.
Qed.

Lemma preserves_when (b : bool) (m : M Session unit) :
  preserves P m -> preserves P (when b m).
Proof. intros Hm. destruct b; [exact Hm|apply preserves_ret]. Qed.
End Preserves.



Ltac pres_modify :=
  apply preserves_modify; unfold tracking;
  let s := fresh "s" in let H := fresh "H" in
  intros s H; unfold on_all_rows;
  try match goal with |- context [match table ?t with _ => _ end] => destruct (table t) end;
  simpl; solve [exact H | reflexivity].

Ltac pres :=
  repeat first
    [ apply preserves_ret | apply preserves_raise | apply preserves_get
    | apply preserves_lift
    | apply preserves_bind; [|intros ?]
    | apply preserves_when
    | pres_modify
    | solve [eauto with pres]
    | match goal with
      | |- preserves _ (match ?x with _ => _ end) => destruct x
      | |- preserves _ (let _ := _ in _) => cbv zeta
      end ].

Create HintDb pres.

Lemma tracking_delete_in (t : option Table) : preserves tracking (_delete_TOAs t).
Proof. unfold _delete_TOAs. pres. Qed.
#[local] Hint Resolve tracking_delete_in : pres.

Lemma tracking_delete_TOAs indices selected :
  preserves tracking (delete_TOAs indices selected).
Proof. unfold delete_TOAs, delete_from_stash. pres. Qed.

Lemma tracking_update_resids : preserves tracking update_resids.
Proof. unfold update_resids. pres. Qed.
#[local] Hint Resolve tracking_update_resids : pres.

Lemma tracking_add_phase_wrap selected phase :
  preserves tracking (add_phase_wrap selected phase).
Proof.
  unfold add_phase_wrap, col_absent, current_model, compute_both. pres.
Qed.

Lemma tracking_add_jump selected : preserves tracking (add_jump selected).
Proof.
  unfold add_jump, mirror_newest_jump, selected_flags, add_jump_and_flags,
    delete_jump_and_flags, the_postfit_model, component_of.
  pres.
Qed.

Lemma tracking_fit selected iters cr now :
  preserves tracking (fit selected iters cr now).
Proof.
  unfold fit, promote, store_postfit, the_postfit_model, compute_both,
    compute_random_models, baseline_mean_check.
  pres.
Qed.

Lemma tracking_reset_model : preserves tracking reset_model.
Proof. unfold reset_model, load_prefit_model. pres. Qed.

Lemma tracking_reset_TOAs : preserves tracking reset_TOAs.
Proof. unfold reset_TOAs. pres. Qed.

Lemma tracking_run_command c : preserves tracking (run_command c).
Proof.
  destruct c; simpl.
  - apply preserves_bind; [apply tracking_delete_TOAs|intros; apply preserves_ret].
  - apply tracking_add_phase_wrap.
  - apply preserves_bind; [apply tracking_add_jump|intros; apply preserves_ret].
  - apply tracking_fit.
  - apply tracking_update_resids.
  - apply tracking_reset_model.
  - apply tracking_reset_TOAs.
Qed.

Lemma tracking_run_commands cs s : tracking s -> tracking (run_commands cs s).
Proof.
  revert s. induction cs as [|c cs IH]; intros s H; simpl; [exact H|].
  apply IH. apply tracking_run_command. exact H.
Qed.

(** ** Phase wraps *)

Lemma column_update_same name c mask (l : list Row) :
  (fun r => cells r !! name) <$> update_where (bump name c) mask l
  = update_where (fmap (M := option) (fun v => (v + c)%Q)) mask ((fun r => cells r !! name) <$> l).
Proof.
  revert l. induction mask as [|b mask IH]; intros [|r l]; simpl; try reflexivity.
  rewrite IH. f_equal. destruct b; [|reflexivity].
  unfold bump. destruct (cells r !! name) eqn:Hc; simpl.
  - rewrite lookup_insert_eq. reflexivity.
  - rewrite Hc. reflexivity.
Qed.

Lemma column_update_other name name' c mask (l : list Row) :
  name' <> name ->
  (fun r => cells r !! name') <$> update_where (bump name c) mask l
  = (fun r => cells r !! name') <$> l.
Proof.
  intros Hne.
  revert l. induction mask as [|b mask IH]; intros [|r l]; simpl; try reflexivity.
  rewrite IH. f_equal. destruct b; [|reflexivity].
  unfold bump. destruct (cells r !! name) eqn:Hc; simpl; [|reflexivity].
  apply lookup_insert_ne. congruence.
Qed.


Lemma update_resids_ok (s : Session) :
  (fitted s = true -> is_Some (postfit_model s)) ->
  exists s', update_resids s = (s', Ok tt) /\
             all_toas s' = all_toas s /\ selected_toas s' = selected_toas s /\
             use_pulse_numbers s' = use_pulse_numbers s.
Proof.
  intros Hf. unfold update_resids, bind, get, modify, ret. simpl.
  destruct (fitted s).
  - destruct (Hf eq_refl) as [pm ->]. eauto.
  - eauto.
Qed.

Lemma add_phase_wrap_run (selected : list bool) (cycles : Q) (s : Session)
      (tb tbs : Table) (m : TimingModel) :
  table (all_toas s) = Some tb ->
  table (selected_toas s) = Some tbs ->
  length selected = table_len tb ->
  (if fitted s then postfit_model s = Some m else prefit_model s = m) ->
  let no_pn := negb (has_col "pulse_number" tb) || negb (has_col "pulse_number" tbs) in
  let no_dpn := negb (has_col "delta_pulse_number" tb)
                || negb (has_col "delta_pulse_number" tbs) in
  let pn t := if no_pn then assign_col "pulse_number" (pulse_number (view s m)) t else t in
  let dpn t := if no_dpn then assign_col "delta_pulse_number" (fun _ => 0%Q) t else t in
  exists s',
    add_phase_wrap selected cycles s = (s', Ok tt) /\
    table (all_toas s')
    = Some (mkTable (colnames (dpn (pn tb)))
              (update_where (bump "delta_pulse_number" cycles) selected
                            (rows (dpn (pn tb))))) /\
    table (selected_toas s') = Some (dpn (pn tbs)) /\
    use_pulse_numbers s' = true.
Proof.
  intros Htb Htbs Hlen Hm no_pn no_dpn pn dpn.
  assert (Hcur : current_model s = (s, Ok m)).
  { unfold current_model, bind, get, ret. destruct (fitted s); [rewrite Hm|rewrite Hm]; reflexivity. }
  assert (Hpost : fitted s = true -> is_Some (postfit_model s)).
  { intros Hf. rewrite Hf in Hm. rewrite Hm. eauto. }
  unfold add_phase_wrap.
  (* the pulse_number column *)
  assert (Hc1 : col_absent "pulse_number" s = (s, Ok no_pn)).
  { unfold col_absent, bind, get, lift, ret, need_table. rewrite Htb, Htbs. simpl.
    unfold no_pn. destruct (has_col "pulse_number" tb); reflexivity. }
  rewrite (bind_ok _ _ _ _ _ Hc1).
  set (s1 := if no_pn
             then set_selected_toas (mkTOAs (Some (pn tbs)))
                    (set_all_toas (mkTOAs (Some (pn tb))) s)
             else s).
  assert (H1 : when no_pn (m0 <- current_model;; compute_both m0) s = (s1, Ok tt)).
  { unfold when, s1, pn. destruct no_pn; [|reflexivity].
    rewrite (bind_ok _ _ _ _ _ Hcur).
    unfold compute_both, bind, get, lift, modify, compute_pulse_numbers, need_table.
    rewrite Htb, Htbs. reflexivity. }
  rewrite (bind_ok _ _ _ _ _ H1).
  assert (Htb1 : table (all_toas s1) = Some (pn tb)).
  { unfold s1, pn. destruct no_pn; [reflexivity|exact Htb]. }
  assert (Htbs1 : table (selected_toas s1) = Some (pn tbs)).
  { unfold s1, pn. destruct no_pn; [reflexivity|exact Htbs]. }
  assert (Hf1 : fitted s1 = fitted s /\ postfit_model s1 = postfit_model s).
  { unfold s1. destruct no_pn; split; reflexivity. }
  (* the delta_pulse_number column *)
  assert (Hc2 : col_absent "delta_pulse_number" s1 = (s1, Ok no_dpn)).
  { unfold col_absent, bind, get, lift, ret, need_table. rewrite Htb1, Htbs1. simpl.
    unfold no_dpn, pn. destruct no_pn.
    - rewrite !has_col_assign_other by discriminate.
      destruct (has_col "delta_pulse_number" tb); reflexivity.
    - destruct (has_col "delta_pulse_number" tb); reflexivity. }
  rewrite (bind_ok _ _ _ _ _ Hc2).
  set (s2 := if no_dpn
             then set_selected_toas (mkTOAs (Some (dpn (pn tbs))))
                    (set_all_toas (mkTOAs (Some (dpn (pn tb)))) s1)
             else s1).
  match goal with |- context [bind (when no_dpn ?body) _] =>
    assert (H2 : when no_dpn body s1 = (s2, Ok tt)) end.
  { unfold when, s2, dpn. destruct no_dpn; [|reflexivity].
    unfold bind, get, lift, modify, zero_column, ntoas, need_table, assign_zeros.
    rewrite Htb1, Htbs1. simpl.
    rewrite !bool_decide_eq_true_2 by reflexivity. reflexivity. }
  rewrite (bind_ok _ _ _ _ _ H2).
  assert (Htb2 : table (all_toas s2) = Some (dpn (pn tb))).
  { unfold s2, dpn. destruct no_dpn; [reflexivity|exact Htb1]. }
  assert (Htbs2 : table (selected_toas s2) = Some (dpn (pn tbs))).
  { unfold s2, dpn. destruct no_dpn; [reflexivity|exact Htbs1]. }
  assert (Hf2 : fitted s2 = fitted s /\ postfit_model s2 = postfit_model s).
  { unfold s2. destruct no_dpn; simpl; exact Hf1. }
  (* the wrap itself *)
  assert (Hcol : has_col "delta_pulse_number" (dpn (pn tb)) = true).
  { unfold dpn. destruct no_dpn eqn:Hnd; [apply has_col_assign_same|].
    unfold no_dpn in Hnd. apply orb_false_elim in Hnd. destruct Hnd as [Hnd _].
    apply negb_false_iff in Hnd.
    unfold pn. destruct no_pn; [|exact Hnd].
    rewrite has_col_assign_other by discriminate. exact Hnd. }
  assert (Hlen2 : length selected = table_len (dpn (pn tb))).
  { unfold dpn, pn. destruct no_dpn, no_pn; rewrite ?table_len_assign; exact Hlen. }
  unfold bind at 1. unfold get at 1.
  unfold bind at 1. unfold lift at 1. unfold need_table. rewrite Htb2.
  unfold bind at 1. unfold lift at 1. unfold add_where.
  rewrite Hcol. simpl negb. cbv iota.
  rewrite bool_decide_eq_true_2 by exact Hlen2. simpl negb. cbv iota.
  unfold bind at 1. unfold modify at 1.
  unfold bind at 1. unfold modify at 1.
  match goal with |- context [update_resids ?x] =>
    destruct (update_resids_ok x) as (s' & Hup & Ha & Hs & Hu) end.
  { simpl. destruct Hf2 as [-> ->]. exact Hpost. }
  exists s'. split; [exact Hup|].
  rewrite Ha, Hs, Hu. simpl. rewrite Htbs2. repeat split; reflexivity.
Qed.

Lemma has_col_rows (name : string) (t : Table) (l : list Row) :
  has_col name (mkTable (colnames t) l) = has_col name t.
Proof. reflexivity. Qed.


(** * Deleting TOAs *)

(** ** Masks *)

Lemma select_sublist {A} (mask : list bool) (l : list A) : select mask l `sublist_of` l.
Proof.
  revert l. induction mask as [|b mask IH]; intros [|x l]; simpl;
    try apply sublist_nil_l.
  destruct b; [apply sublist_skip|apply sublist_cons]; apply IH.
Qed.

Lemma select_fmap {A B} (g : A -> B) (mask : list bool) (l : list A) :
  g <$> select mask l = select mask (g <$> l).
Proof.
  revert l. induction mask as [|b mask IH]; intros [|x l]; simpl; try reflexivity.
  destruct b; simpl; now rewrite IH.
Qed.

Lemma select_invert_map {A} (P : A -> bool) (l : list A) :
  select (invert (P <$> l)) l = filter (fun x => P x = false) l.
Proof.
  unfold invert. induction l as [|x l IH]; [reflexivity|].
  rewrite filter_cons. cbn. destruct (P x); cbn; cbn in IH; rewrite IH.
  - destruct (decide (true = false)); [discriminate|reflexivity].
  - destruct (decide (false = false)); [reflexivity|congruence].
Qed.

Lemma count_true_map {A} (P : A -> bool) (l : list A) :
  (count_true (P <$> l) + length (filter (fun x => P x = false) l) = length l)%nat.
Proof.
  unfold count_true. induction l as [|x l IH]; [reflexivity|].
  rewrite fmap_cons, !filter_cons. destruct (P x).
  - rewrite decide_True by reflexivity. rewrite decide_False by discriminate.
    simpl. lia.
  - rewrite decide_False by discriminate. rewrite decide_True by reflexivity.
    simpl. lia.
Qed.

Lemma select_lookup_true {A} (mask : list bool) (l : list A) (i : nat) (x : A) :
  mask !! i = Some true -> l !! i = Some x -> x ∈ select mask l.
Proof.
  revert l i. induction mask as [|b mask IH]; intros [|y l] [|i]; simpl;
    try discriminate.
  - intros [= ->] [= ->]. left.
  - intros Hm Hl. destruct b; [right|]; eapply IH; eauto.
Qed.

Lemma select_elem {A} (mask : list bool) (l : list A) (x : A) :
  x ∈ select mask l -> exists i, mask !! i = Some true /\ l !! i = Some x.
Proof.
  revert l. induction mask as [|b mask IH]; intros [|y l]; simpl;
    try (intros H; now apply elem_of_nil in H).
  destruct b.
  - intros H. apply elem_of_cons in H. destruct H as [->|H].
    + exists 0%nat. auto.
    + destruct (IH _ H) as (i & ? & ?). exists (S i). auto.
  - intros H. destruct (IH _ H) as (i & ? & ?). exists (S i). auto.
Qed.

(** ** Grouping by observatory *)

Lemma insert_by_obs_perm (r : Row) (l : list Row) : insert_by_obs r l ≡ₚ r :: l.
Proof.
  induction l as [|x l IH]; simpl; [reflexivity|].
  destruct (String.leb (obs r) (obs x)); [reflexivity|].
  rewrite IH. apply Permutation_swap.
Qed.

Lemma group_by_obs_perm (t : Table) : rows (group_by_obs t) ≡ₚ rows t.
Proof.
  unfold group_by_obs. simpl. induction (rows t) as [|r l IH]; simpl; [reflexivity|].
  rewrite insert_by_obs_perm. now rewrite IH.
Qed.

(** ** The deletion mask *)

Lemma first_pos_lookup (x : Z) (col : list Z) (p : nat) :
  first_pos x col = Some p -> col !! p = Some x.
Proof.
  revert p. induction col as [|y col IH]; intros p; simpl; [discriminate|].
  destruct (bool_decide (y = x)) eqn:Hy.
  - intros [= <-]. apply bool_decide_eq_true in Hy. now subst.
  - destruct (first_pos x col) as [q|]; simpl; [|discriminate].
    intros [= <-]. simpl. now apply IH.
Qed.

Lemma first_pos_NoDup (x : Z) (col : list Z) (p : nat) :
  NoDup col -> col !! p = Some x -> first_pos x col = Some p.
Proof.
  intros Hnd. revert p. induction Hnd as [|y col Hy Hnd IH]; intros p; simpl;
    [discriminate|].
  destruct p as [|p]; simpl.
  - intros [= ->]. now rewrite bool_decide_eq_true_2.
  - intros Hp. rewrite bool_decide_eq_false_2.
    + now rewrite (IH _ Hp).
    + intros ->. apply Hy. eapply list_elem_of_lookup_2; eauto.
Qed.

Lemma marks_length (col : list Z) (l : list Z) (init : list bool) :
  length (foldl (mark_step col) init l) = length init.
Proof.
  revert init. induction l as [|ii l IH]; intros init; simpl; [reflexivity|].
  rewrite IH. unfold mark_step. destruct (first_pos ii col); [|reflexivity].
  apply length_insert.
Qed.

Lemma marks_lookup (col : list Z) (l : list Z) (init : list bool) (p : nat) :
  length init = length col ->
  foldl (mark_step col) init l !! p = Some true <->
  init !! p = Some true \/ exists ii, ii ∈ l /\ first_pos ii col = Some p.
Proof.
  revert init. induction l as [|ii l IH]; intros init Hlen; simpl.
  - split; [auto|]. intros [H|(ii & Hin & _)]; [exact H|]. now apply elem_of_nil in Hin.
  - rewrite IH.
    2:{ unfold mark_step. destruct (first_pos ii col); [|exact Hlen].
        unfold mark. now rewrite length_insert. }
    unfold mark_step. destruct (first_pos ii col) as [q|] eqn:Hq.
    + unfold mark. split.
      * intros [H|(jj & Hin & Hj)].
        -- destruct (decide (q = p)) as [->|Hne].
           ++ right. exists ii. split; [left|exact Hq].
           ++ left. now rewrite list_lookup_insert_ne in H.
        -- right. exists jj. split; [now right|exact Hj].
      * intros [H|(jj & Hin & Hj)].
        -- left. destruct (decide (q = p)) as [->|Hne].
           ++ apply list_lookup_insert_eq. apply lookup_lt_Some in H. exact H.
           ++ now rewrite list_lookup_insert_ne.
        -- apply elem_of_cons in Hin. destruct Hin as [->|Hin].
           ++ left. rewrite Hq in Hj. injection Hj as ->.
              apply list_lookup_insert_eq. rewrite Hlen.
              apply first_pos_lookup in Hq. eapply lookup_lt_Some; eauto.
           ++ right. eauto.
    + split.
      * intros [H|(jj & Hin & Hj)]; [now left|right; exists jj; split; [now right|exact Hj]].
      * intros [H|(jj & Hin & Hj)]; [now left|].
        apply elem_of_cons in Hin. destruct Hin as [->|Hin]; [congruence|].
        right. eauto.
Qed.

Lemma bool_list_eq (l1 l2 : list bool) :
  length l1 = length l2 ->
  (forall p, l1 !! p = Some true <-> l2 !! p = Some true) -> l1 = l2.
Proof.
  revert l2. induction l1 as [|a l1 IH]; intros [|b l2] Hlen Hp; simpl in *;
    try discriminate; [reflexivity|].
  f_equal.
  - specialize (Hp 0%nat). simpl in Hp. destruct a, b; try reflexivity.
    + destruct Hp as [Hp _]. specialize (Hp eq_refl). discriminate.
    + destruct Hp as [_ Hp]. specialize (Hp eq_refl). discriminate.
  - apply IH; [lia|]. intros p. apply (Hp (S p)).
Qed.

Lemma del_inds_of_NoDup (D : gset Z) (t : Table) :
  NoDup (index_col t) ->
  del_inds_of D t = (fun r => bool_decide (index r ∈ D)) <$> rows t.
Proof.
  intros Hnd. unfold del_inds_of.
  change (foldl (mark_step (index_col t)) (replicate (table_len t) false) (elements D)
          = (fun r => bool_decide (index r ∈ D)) <$> rows t).
  apply bool_list_eq.
  - rewrite marks_length, length_replicate, length_fmap. reflexivity.
  - intros p. rewrite marks_lookup.
    2:{ rewrite length_replicate. unfold index_col, table_len. now rewrite length_map. }
    rewrite list_lookup_fmap. split.
    + intros [H|(ii & Hin & Hp)].
      * apply lookup_replicate in H. destruct H as [H _]. discriminate.
      * apply first_pos_lookup in Hp. unfold index_col in Hp.
        change (map index (rows t)) with (index <$> rows t) in Hp.
        rewrite list_lookup_fmap in Hp.
        destruct (rows t !! p) as [r|]; simpl in *; [|discriminate].
        injection Hp as ->. f_equal. apply bool_decide_eq_true.
        now apply elem_of_elements.
    + intros H. right.
      destruct (rows t !! p) as [r|] eqn:Hr; simpl in H; [|discriminate].
      injection H as H. apply bool_decide_eq_true in H.
      exists (index r). split; [now apply elem_of_elements|].
      apply first_pos_NoDup; [exact Hnd|].
      unfold index_col. change (map index (rows t)) with (index <$> rows t).
      rewrite list_lookup_fmap, Hr. reflexivity.
Qed.

(** ** [_delete_TOAs] *)

Lemma del_inds_length (D : gset Z) (t : Table) :
  length (del_inds_of D t) = table_len t.
Proof.
  unfold del_inds_of.
  change (length (foldl (mark_step (index_col t)) (replicate (table_len t) false)
                        (elements D)) = table_len t).
  now rewrite marks_length, length_replicate.
Qed.

Lemma delete_in_run (t : Table) (s : Session) :
  _delete_TOAs (Some t) s = (s, Ok (delete_result (deleted s) t)).
Proof.
  unfold _delete_TOAs, delete_result, bind, get, lift, ret, table_mask. simpl.
  destruct (count_true _ <? table_len t)%nat; [|reflexivity].
  rewrite bool_decide_eq_true_2; [reflexivity|].
  unfold invert. now rewrite length_map, del_inds_length.
Qed.

Lemma delete_in_none (s : Session) :
  _delete_TOAs None s = (s, Raise AttributeError).
Proof. reflexivity. Qed.

Lemma kept_filter (D : gset Z) (t : Table) :
  filter (fun r => bool_decide (index r ∈ D) = false) (rows t) = kept D t.
Proof.
  unfold kept. apply list_filter_iff. intros r.
  rewrite bool_decide_eq_false. reflexivity.
Qed.

Lemma delete_result_NoDup (D : gset Z) (t : Table) :
  NoDup (index_col t) ->
  delete_result D t
  = match kept D t with
    | [] => None
    | _ :: _ => Some (group_by_obs (mkTable (colnames t) (kept D t)))
    end.
Proof.
  intros Hnd. unfold delete_result. rewrite (del_inds_of_NoDup D t Hnd).
  rewrite select_invert_map, kept_filter.
  pose proof (count_true_map (fun r => bool_decide (index r ∈ D)) (rows t)) as Hc.
  cbv beta in Hc. rewrite kept_filter in Hc. unfold table_len.
  destruct (kept D t) as [|r l] eqn:Hk; simpl in Hc.
  - destruct (Nat.ltb_spec (count_true ((λ r, bool_decide (index r ∈ D)) <$> rows t))
                           (length (rows t))); [lia|reflexivity].
  - destruct (Nat.ltb_spec (count_true ((λ r, bool_decide (index r ∈ D)) <$> rows t))
                           (length (rows t))); [reflexivity|lia].
Qed.

Lemma delete_result_some (D : gset Z) (t t' : Table) :
  NoDup (index_col t) -> delete_result D t = Some t' ->
  rows t' ≡ₚ kept D t /\ colnames t' = colnames t /\ kept D t <> [].
Proof.
  intros Hnd. rewrite (delete_result_NoDup D t Hnd).
  destruct (kept D t) as [|r l] eqn:Hk; [discriminate|].
  intros [= <-]. split; [|split; [reflexivity|discriminate]].
  rewrite group_by_obs_perm. reflexivity.
Qed.

Lemma delete_result_none (D : gset Z) (t : Table) :
  NoDup (index_col t) -> delete_result D t = None -> kept D t = [].
Proof.
  intros Hnd. rewrite (delete_result_NoDup D t Hnd).
  destruct (kept D t); [reflexivity|discriminate].
Qed.

Lemma kept_elem (D : gset Z) (t : Table) (r : Row) :
  r ∈ kept D t <-> r ∈ rows t /\ index r ∉ D.
Proof. unfold kept. rewrite list_elem_of_filter. tauto. Qed.

Lemma kept_NoDup (D : gset Z) (t : Table) :
  NoDup (index_col t) -> NoDup (index <$> kept D t).
Proof.
  intros Hnd. eapply sublist_NoDup; [exact Hnd|].
  unfold index_col. apply (fmap_sublist index). unfold kept. apply sublist_filter.
Qed.

(** ** [delete_TOAs] *)

Lemma delete_from_stash_frame (s s' : Session) (o : outcome unit) :
  delete_from_stash s = (s', o) ->
  all_toas s' = all_toas s /\ selected_toas s' = selected_toas s /\
  deleted s' = deleted s.
Proof.
  unfold delete_from_stash, bind, get, lift, ret, modify.
  destruct (stashed s) as [st|]; [|intros [= <- <-]; auto].
  destruct (ntoas st) as [n|]; simpl; [|intros [= <- <-]; auto].
  destruct (n =? 0)%nat; [intros [= <- <-]; auto|].
  destruct (table st) as [t|].
  - rewrite delete_in_run. intros [= <- <-]. auto.
  - rewrite delete_in_none. intros [= <- <-]. auto.
Qed.

Lemma delete_from_stash_none (s : Session) :
  stashed s = None -> delete_from_stash s = (s, Ok tt).
Proof. intros H. unfold delete_from_stash, bind, get, ret. now rewrite H. Qed.

Lemma newselected_prefix (indices idx : list Z) (sel : list bool) :
  (forall i, i ∈ idx -> i ∉ indices) ->
  snd <$> filter (fun p => fst p ∉ indices) (zip idx sel) = take (length idx) sel.
Proof.
  revert sel. induction idx as [|i idx IH]; intros sel Hin; [reflexivity|].
  destruct sel as [|b sel]; [reflexivity|].
  cbn [zip zip_with]. rewrite filter_cons. cbn [fst].
  rewrite decide_True by (apply Hin; left).
  cbn. f_equal. apply IH. intros j Hj. apply Hin. now right.
Qed.

Lemma newselected_length_le (indices : list Z) (t : Table) (sel : list bool) :
  (length (newselected_of indices t sel) <= length sel)%nat.
Proof.
  unfold newselected_of. rewrite length_fmap.
  etransitivity; [apply length_filter|].
  rewrite length_zip_with. lia.
Qed.

Ltac run_modify :=
  match goal with
  | |- context [bind (modify ?g) ?k ?s] =>
      change (bind (modify g) k s) with (k tt (g s)); cbv beta
  end.

Ltac run_get :=
  match goal with
  | |- context [bind get ?k ?s] => change (bind get k s) with (k s s); cbv beta
  end.

Lemma delete_TOAs_some (indices : list Z) (sel : list bool) (s : Session)
      (A S : Table) :
  table (all_toas s) = Some A ->
  table (selected_toas s) = Some S ->
  let D := deleted s ∪ list_to_set indices in
  let s3 := deleted_both indices A S s in
  delete_TOAs indices (Some sel) s
  = match delete_result D S, delete_result D A with
    | None, None => (set_selected_toas (mkTOAs None) s3, Raise TypeError)
    | None, Some A' =>
        bind delete_from_stash (fun _ => ret (replicate (table_len A') false))
             (set_selected_toas (mkTOAs (Some A')) s3)
    | Some _, None => (s3, Raise TypeError)
    | Some _, Some A' =>
        let ns := newselected_of indices A' sel in
        if bool_decide (length ns = table_len A')
        then bind delete_from_stash (fun _ => ret ns)
               (set_selected_toas
                  (mkTOAs (Some (mkTable (colnames A') (select ns (rows A'))))) s3)
        else (s3, Raise IndexError)
    end.
Proof.
  intros HA HS D s3. unfold delete_TOAs.
  set (s1 := set_deleted D s).
  run_modify.
  set (s2 := set_selected_toas (mkTOAs (delete_result D S)) s1).
  match goal with |- bind ?m _ _ = _ => assert (H2 : m s1 = (s2, Ok tt)) end.
  { run_get. replace (table (selected_toas s1)) with (Some S) by (symmetry; exact HS).
    rewrite (bind_ok _ _ _ _ _ (delete_in_run S s1)). reflexivity. }
  rewrite (bind_ok _ _ _ _ _ H2).
  run_get.
  replace (table (all_toas s2)) with (Some A) by (symmetry; exact HA).
  rewrite (bind_ok _ _ _ _ _ (delete_in_run A s2)).
  change (deleted s2) with D.
  run_modify. run_get.
  change (set_all_toas (mkTOAs (delete_result D A)) s2) with s3.
  change (table (selected_toas s3)) with (delete_result D S).
  change (all_toas s3) with (mkTOAs (delete_result D A)).
  destruct (delete_result D S) as [S'|]; destruct (delete_result D A) as [A'|];
    unfold bind, modify, lift, ntoas, need_table, table_mask, raise, ret;
    cbn [table]; try reflexivity.
  destruct (bool_decide _); reflexivity.
Qed.

Lemma delete_TOAs_nomask (indices : list Z) (s : Session) (A : Table) :
  table (all_toas s) = Some A ->
  let D := deleted s ∪ list_to_set indices in
  let s2 := set_all_toas (mkTOAs (delete_result D A)) (set_deleted D s) in
  delete_TOAs indices None s
  = match table (selected_toas s), delete_result D A with
    | Some _, _ => (s2, Raise TypeError)
    | None, None => (set_selected_toas (mkTOAs None) s2, Raise TypeError)
    | None, Some A' =>
        bind delete_from_stash (fun _ => ret (replicate (table_len A') false))
             (set_selected_toas (mkTOAs (Some A')) s2)
    end.
Proof.
  intros HA D s2. unfold delete_TOAs.
  set (s1 := set_deleted D s).
  run_modify.
  rewrite (bind_ok _ _ s1 s1 tt eq_refl).
  run_get.
  replace (table (all_toas s1)) with (Some A) by (symmetry; exact HA).
  rewrite (bind_ok _ _ _ _ _ (delete_in_run A s1)).
  change (deleted s1) with D.
  run_modify. run_get.
  change (set_all_toas (mkTOAs (delete_result D A)) s1) with s2.
  change (table (selected_toas s2)) with (table (selected_toas s)).
  change (all_toas s2) with (mkTOAs (delete_result D A)).
  destruct (table (selected_toas s)) as [S|]; destruct (delete_result D A) as [A'|];
    unfold bind, modify, lift, ntoas, need_table, table_mask, raise, ret;
    cbn [table]; reflexivity.
Qed.

Lemma delete_TOAs_all_none (indices : list Z) (sel : list bool) (s : Session)
      (S : Table) :
  table (all_toas s) = None ->
  table (selected_toas s) = Some S ->
  let D := deleted s ∪ list_to_set indices in
  delete_TOAs indices (Some sel) s
  = (set_selected_toas (mkTOAs (delete_result D S)) (set_deleted D s),
     Raise AttributeError).
Proof.
  intros HA HS D. unfold delete_TOAs.
  set (s1 := set_deleted D s).
  run_modify.
  set (s2 := set_selected_toas (mkTOAs (delete_result D S)) s1).
  match goal with |- bind ?m _ _ = _ => assert (H2 : m s1 = (s2, Ok tt)) end.
  { run_get. replace (table (selected_toas s1)) with (Some S) by (symmetry; exact HS).
    rewrite (bind_ok _ _ _ _ _ (delete_in_run S s1)). reflexivity. }
  rewrite (bind_ok _ _ _ _ _ H2).
  run_get.
  replace (table (all_toas s2)) with (@None Table) by (symmetry; exact HA).
  reflexivity.
Qed.

Lemma delete_TOAs_nomask_none (indices : list Z) (s : Session) :
  table (all_toas s) = None ->
  delete_TOAs indices None s
  = (set_deleted (deleted s ∪ list_to_set indices) s, Raise AttributeError).
Proof.
  intros HA. unfold delete_TOAs.
  run_modify.
  rewrite (bind_ok _ _ _ _ tt eq_refl).
  run_get. cbn [all_toas set_deleted]. rewrite HA. reflexivity.
Qed.

Lemma delete_TOAs_sel_none (indices : list Z) (sel : list bool) (s : Session) :
  table (selected_toas s) = None ->
  delete_TOAs indices (Some sel) s
  = (set_deleted (deleted s ∪ list_to_set indices) s, Raise AttributeError).
Proof.
  intros HS. unfold delete_TOAs.
  run_modify.
  unfold bind at 1. unfold bind at 1. unfold get at 1. cbv beta iota.
  cbn [selected_toas set_deleted]. rewrite HS. reflexivity.
Qed.

Lemma kept_nil (D : gset Z) (t : Table) :
  kept D t = [] <-> forall r, r ∈ rows t -> index r ∈ D.
Proof.
  split.
  - intros Hk r Hr. destruct (decide (index r ∈ D)) as [|Hn]; [assumption|].
    assert (Hin : r ∈ kept D t) by (apply kept_elem; auto).
    rewrite Hk in Hin. now apply elem_of_nil in Hin.
  - intros Hall. destruct (kept D t) as [|r l] eqn:Hk; [reflexivity|].
    assert (Hin : r ∈ kept D t) by (rewrite Hk; left).
    apply kept_elem in Hin. destruct Hin as [Hr Hn]. destruct Hn. now apply Hall.
Qed.



(** X7.  [delete_TOAs] called without a mask on a session that has both its
    tables: it raises a [TypeError]; the full set has lost the deleted
    rows by then, the selected set has not been touched. *)
Theorem delete_without_mask_raises (indices : list Z) (s : Session) (A S : Table) :
  table (all_toas s) = Some A ->
  table (selected_toas s) = Some S ->
  let D := deleted s ∪ list_to_set indices in
  let s' := exec (delete_TOAs indices None) s in
  result (delete_TOAs indices None) s = Raise TypeError /\
  deleted s' = D /\
  all_toas s' = mkTOAs (delete_result D A) /\
  selected_toas s' = selected_toas s.
Proof.
  intros HA HS D s'. unfold s', exec, result.
  rewrite (delete_TOAs_nomask indices s A HA), HS. simpl. auto.
Qed.

Lemma delete_result_survivor (D : gset Z) (t : Table) :
  NoDup (index_col t) -> (exists r, r ∈ rows t /\ index r ∉ D) ->
  exists t', delete_result D t = Some t'.
Proof.
  intros Hnd (r & Hr & Hn).
  destruct (delete_result D t) as [t'|] eqn:Hres; [eauto|].
  apply delete_result_none in Hres; [|exact Hnd].
  assert (Hin : r ∈ kept D t) by (apply kept_elem; auto).
  rewrite Hres in Hin. now apply elem_of_nil in Hin.
Qed.

Lemma delete_result_len (D : gset Z) (t t' : Table) :
  NoDup (index_col t) -> delete_result D t = Some t' ->
  (table_len t' <= table_len t)%nat.
Proof.
  intros Hnd Hres. destruct (delete_result_some _ _ _ Hnd Hres) as (Hp & _ & _).
  unfold table_len. rewrite Hp. unfold kept. apply length_filter.
Qed.

Lemma delete_result_fresh (D : gset Z) (t t' : Table) (r : Row) :
  NoDup (index_col t) -> delete_result D t = Some t' ->
  r ∈ rows t' -> r ∈ rows t /\ index r ∉ D.
Proof.
  intros Hnd Hres Hr. destruct (delete_result_some _ _ _ Hnd Hres) as (Hp & _ & _).
  rewrite Hp in Hr. now apply kept_elem.
Qed.

Lemma delete_result_NoDup_out (D : gset Z) (t t' : Table) :
  NoDup (index_col t) -> delete_result D t = Some t' -> NoDup (index_col t').
Proof.
  intros Hnd Hres. destruct (delete_result_some _ _ _ Hnd Hres) as (Hp & _ & _).
  unfold index_col. change (NoDup (index <$> rows t')).
  rewrite Hp. now apply kept_NoDup.
Qed.

(** The run of [delete_TOAs] when both sets keep a row. *)
Lemma delete_TOAs_wf_run (indices : list Z) (sel : list bool) (s : Session)
      (A S A' S' : Table) :
  table (all_toas s) = Some A ->
  table (selected_toas s) = Some S ->
  NoDup (index_col A) ->
  (table_len A <= length sel)%nat ->
  stashed s = None ->
  let D := deleted s ∪ list_to_set indices in
  delete_result D A = Some A' ->
  delete_result D S = Some S' ->
  let mask := take (table_len A') sel in
  delete_TOAs indices (Some sel) s
  = (set_selected_toas
       (mkTOAs (Some (mkTable (colnames A') (select mask (rows A')))))
       (deleted_both indices A S s),
     Ok mask) /\ length mask = table_len A'.
Proof.
  intros HA HS Hnd Hlen Hst D HrA HrS mask.
  assert (Hns : newselected_of indices A' sel = mask).
  { unfold newselected_of, mask.
    rewrite newselected_prefix.
    - unfold index_col, table_len. now rewrite length_map.
    - intros i Hi. unfold index_col in Hi.
      change (i ∈ index <$> rows A') in Hi.
      apply list_elem_of_fmap in Hi. destruct Hi as (r & -> & Hr).
      destruct (delete_result_fresh _ _ _ _ Hnd HrA Hr) as [_ Hn].
      intros Hin. apply Hn. apply elem_of_union. right.
      now apply elem_of_list_to_set. }
  assert (Hml : length mask = table_len A').
  { unfold mask. rewrite length_take.
    pose proof (delete_result_len _ _ _ Hnd HrA). lia. }
  split; [|exact Hml].
  rewrite (delete_TOAs_some indices sel s A S HA HS).
  fold D. rewrite HrS, HrA. cbv zeta. rewrite Hns.
  rewrite bool_decide_eq_true_2 by exact Hml.
  unfold bind. rewrite delete_from_stash_none; [reflexivity|].
  exact Hst.
Qed.

(** X3.  When both sets keep a row, the mask that [delete_TOAs] returns is
    the beginning of the mask it was given, cut to the size of the new
    full set: the flags are not moved to the positions of the TOAs that
    survive.  The new full set holds the rows that are not deleted, the
    new selected set the rows of the new full set under that mask. *)
Theorem delete_mask_is_prefix (indices : list Z) (sel : list bool) (s : Session)
        (A S : Table) :
  table (all_toas s) = Some A ->
  table (selected_toas s) = Some S ->
  NoDup (index_col A) -> NoDup (index_col S) ->
  (table_len A <= length sel)%nat ->
  stashed s = None ->
  let D := deleted s ∪ list_to_set indices in
  (exists r, r ∈ rows A /\ index r ∉ D) ->
  (exists r, r ∈ rows S /\ index r ∉ D) ->
  exists s' A',
    delete_TOAs indices (Some sel) s = (s', Ok (take (table_len A') sel)) /\
    deleted s' = D /\
    table (all_toas s') = Some A' /\
    rows A' ≡ₚ kept D A /\
    table (selected_toas s')
    = Some (mkTable (colnames A') (select (take (table_len A') sel) (rows A'))).
Proof.
  intros HA HS HndA HndS Hlen Hst D HsA HsS.
  destruct (delete_result_survivor D A HndA HsA) as [A' HrA].
  destruct (delete_result_survivor D S HndS HsS) as [S' HrS].
  destruct (delete_TOAs_wf_run indices sel s A S A' S' HA HS HndA Hlen Hst HrA HrS)
    as [Hrun _].
  eexists _, A'. split; [exact Hrun|].
  split; [reflexivity|]. split; [exact HrA|].
  split; [|reflexivity].
  now destruct (delete_result_some _ _ _ HndA HrA).
Qed.

(** X4.  Under the same conditions the returned mask is true exactly at the
    positions of the new full set whose TOA is in the new selected set. *)
Theorem delete_mask_marks_selection (indices : list Z) (sel : list bool)
        (s : Session) (A S : Table) :
  table (all_toas s) = Some A ->
  table (selected_toas s) = Some S ->
  NoDup (index_col A) -> NoDup (index_col S) ->
  (table_len A <= length sel)%nat ->
  stashed s = None ->
  let D := deleted s ∪ list_to_set indices in
  (exists r, r ∈ rows A /\ index r ∉ D) ->
  (exists r, r ∈ rows S /\ index r ∉ D) ->
  exists s' mask A' S',
    delete_TOAs indices (Some sel) s = (s', Ok mask) /\
    table (all_toas s') = Some A' /\
    table (selected_toas s') = Some S' /\
    length mask = table_len A' /\
    forall i r, rows A' !! i = Some r ->
                (mask !! i = Some true <-> index r ∈ index_col S').
Proof.
  intros HA HS HndA HndS Hlen Hst D HsA HsS.
  destruct (delete_result_survivor D A HndA HsA) as [A' HrA].
  destruct (delete_result_survivor D S HndS HsS) as [S' HrS].
  destruct (delete_TOAs_wf_run indices sel s A S A' S' HA HS HndA Hlen Hst HrA HrS)
    as [Hrun Hml].
  eexists _, _, A', _. split; [exact Hrun|].
  split; [exact HrA|]. split; [reflexivity|]. split; [exact Hml|].
  intros i r Hi. unfold index_col. cbn [rows].
  set (mask := take (table_len A') sel).
  change (mask !! i = Some true <-> index r ∈ index <$> select mask (rows A')).
  split.
  - intros Hm. apply list_elem_of_fmap. exists r. split; [reflexivity|].
    eapply select_lookup_true; eauto.
  - intros Hin. apply list_elem_of_fmap in Hin. destruct Hin as (r' & Heq & Hr').
    apply select_elem in Hr'. destruct Hr' as (j & Hj & Hrj).
    assert (Hnd' : NoDup (index <$> rows A'))
      by exact (delete_result_NoDup_out _ _ _ HndA HrA).
    assert (i = j) as ->; [|exact Hj].
    eapply NoDup_lookup; [exact Hnd'| |].
    + rewrite list_lookup_fmap, Hi. reflexivity.
    + rewrite list_lookup_fmap, Hrj. simpl. now rewrite Heq.
Qed.



(** ** Identity of the TOAs across deletions *)

Lemma exec_stash_then (s0 : Session) (m : list bool) :
  let s' := exec (bind delete_from_stash (fun _ => ret m)) s0 in
  all_toas s' = all_toas s0 /\ selected_toas s' = selected_toas s0 /\
  deleted s' = deleted s0.
Proof.
  unfold exec, bind.
  destruct (delete_from_stash s0) as [s1 o] eqn:Hst.
  apply delete_from_stash_frame in Hst. destruct o; exact Hst.
Qed.

Lemma delete_TOAs_summary (indices : list Z) (sel : list bool) (s : Session)
      (A S : Table) :
  table (all_toas s) = Some A ->
  table (selected_toas s) = Some S ->
  let D := deleted s ∪ list_to_set indices in
  let s' := exec (delete_TOAs indices (Some sel)) s in
  deleted s' = D /\
  all_toas s' = mkTOAs (delete_result D A) /\
  ((exists S', delete_result D S = Some S' /\ selected_toas s' = mkTOAs (Some S')) \/
   selected_toas s' = mkTOAs (delete_result D A) \/
   (exists A' ns, delete_result D A = Some A' /\
                  selected_toas s'
                  = mkTOAs (Some (mkTable (colnames A') (select ns (rows A')))))).
Proof.
  intros HA HS D s'. unfold s'.
  unfold exec at 1 2 3 4 5. rewrite (delete_TOAs_some indices sel s A S HA HS). fold D.
  destruct (delete_result D S) as [S'|] eqn:HrS,
           (delete_result D A) as [A'|] eqn:HrA.
  - cbv zeta. destruct (bool_decide _).
    + match goal with |- context [bind _ _ ?s0] =>
        destruct (exec_stash_then s0 (newselected_of indices A' sel))
          as (Ha & Hs & Hd) end.
      unfold exec in Ha, Hs, Hd. rewrite Ha, Hs, Hd.
      cbn. unfold deleted_both. cbn. fold D. rewrite HrA.
      split; [reflexivity|]. split; [reflexivity|]. right. right. eauto.
    + cbn. unfold deleted_both. cbn. fold D. rewrite HrA, HrS.
      split; [reflexivity|]. split; [reflexivity|]. left. eauto.
  - cbn. unfold deleted_both. cbn. fold D. rewrite HrA, HrS.
    split; [reflexivity|]. split; [reflexivity|]. left. eauto.
  - match goal with |- context [bind _ _ ?s0] =>
      destruct (exec_stash_then s0 (replicate (table_len A') false))
        as (Ha & Hs & Hd) end.
    unfold exec in Ha, Hs, Hd. rewrite Ha, Hs, Hd.
    cbn. unfold deleted_both. cbn. fold D. rewrite HrA.
    split; [reflexivity|]. split; [reflexivity|]. right. left. reflexivity.
  - cbn. unfold deleted_both. cbn. fold D. rewrite HrA.
    split; [reflexivity|]. split; [reflexivity|]. right. left. reflexivity.
Qed.

Lemma toas_ok_none (D : gset Z) : toas_ok D (mkTOAs None).
Proof.
  split; [constructor|]. intros i Hi. now apply elem_of_nil in Hi.
Qed.

Lemma toas_ok_delete_result (D : gset Z) (t : Table) :
  NoDup (index_col t) -> toas_ok D (mkTOAs (delete_result D t)).
Proof.
  intros Hnd. destruct (delete_result D t) as [t'|] eqn:Hres; [|apply toas_ok_none].
  split.
  - exact (delete_result_NoDup_out _ _ _ Hnd Hres).
  - intros i Hi. unfold live_indices, live_rows in Hi. cbn in Hi.
    apply list_elem_of_fmap in Hi. destruct Hi as (r & -> & Hr).
    now destruct (delete_result_fresh _ _ _ _ Hnd Hres Hr).
Qed.

Lemma toas_ok_select (D : gset Z) (t : Table) (ns : list bool) :
  toas_ok D (mkTOAs (Some t)) ->
  toas_ok D (mkTOAs (Some (mkTable (colnames t) (select ns (rows t))))).
Proof.
  intros [Hnd Hout]. unfold toas_ok, live_indices, live_rows in *. cbn in *.
  split.
  - eapply sublist_NoDup; [exact Hnd|].
    apply (fmap_sublist index). apply select_sublist.
  - intros i Hi. apply Hout.
    apply list_elem_of_fmap in Hi. destruct Hi as (r & -> & Hr).
    apply list_elem_of_fmap. exists r. split; [reflexivity|].
    eapply elem_of_sublist; [exact Hr|apply select_sublist].
Qed.

Lemma live_rows_delete_result (D : gset Z) (t : Table) (r : Row) :
  NoDup (index_col t) ->
  r ∈ live_rows (mkTOAs (delete_result D t)) -> r ∈ rows t.
Proof.
  intros Hnd. unfold live_rows. cbn.
  destruct (delete_result D t) as [t'|] eqn:Hres.
  - intros Hr. now destruct (delete_result_fresh _ _ _ _ Hnd Hres Hr).
  - intros Hr. now apply elem_of_nil in Hr.
Qed.

(** One deletion keeps the identity invariant, changes no TOA that
    survives and adds its indices to the deleted set. *)
Lemma delete_step_identity (indices : list Z) (sel : list bool) (s : Session) :
  identity_ok s ->
  let s' := exec (delete_TOAs indices (Some sel)) s in
  identity_ok s' /\ descends s s' /\ (forall i, i ∈ indices -> i ∈ deleted s').
Proof.
  intros (HokA & HokS & Hnone) s'.
  set (D := deleted s ∪ list_to_set indices).
  assert (HD : forall i, i ∈ indices -> i ∈ D).
  { intros i Hi. apply elem_of_union. right. now apply elem_of_list_to_set. }
  assert (Hsub : deleted s ⊆ D) by (apply union_subseteq_l).
  destruct (table (selected_toas s)) as [S|] eqn:HS.
  2:{ (* no selected table: the call raises at once *)
      specialize (Hnone eq_refl).
      unfold s', exec. rewrite (delete_TOAs_sel_none indices sel s HS). cbn.
      split; [|split; [|exact HD]].
      - unfold identity_ok. cbn.
        split; [|split; [|intros _; exact Hnone]].
        + destruct (all_toas s) as [ta]. cbn in Hnone. subst ta. apply toas_ok_none.
        + destruct (selected_toas s) as [ts]. cbn in HS. subst ts. apply toas_ok_none.
      - unfold descends. cbn. split; [auto|]. split; [auto|exact Hsub]. }
  assert (HndS : NoDup (index_col S)).
  { destruct HokS as [Hnd _]. unfold live_indices, live_rows in Hnd.
    now rewrite HS in Hnd. }
  assert (HrowsS : live_rows (selected_toas s) = rows S).
  { unfold live_rows. now rewrite HS. }
  destruct (table (all_toas s)) as [A|] eqn:HA.
  2:{ unfold s', exec. rewrite (delete_TOAs_all_none indices sel s S HA HS). cbn.
      fold D. split; [|split; [|exact HD]].
      - unfold identity_ok. cbn.
        split; [|split; [|intros _; exact HA]].
        + destruct (all_toas s) as [ta]. cbn in HA. subst ta. apply toas_ok_none.
        + now apply toas_ok_delete_result.
      - unfold descends. cbn. split; [auto|]. split; [|exact Hsub].
        intros r Hr. right. rewrite HrowsS.
        eapply live_rows_delete_result; eauto. }
  assert (HndA : NoDup (index_col A)).
  { destruct HokA as [Hnd _]. unfold live_indices, live_rows in Hnd.
    now rewrite HA in Hnd. }
  assert (HrowsA : live_rows (all_toas s) = rows A).
  { unfold live_rows. now rewrite HA. }
  destruct (delete_TOAs_summary indices sel s A S HA HS) as (Hd & Ha & Hs).
  fold s' D in Hd, Ha, Hs.
  pose proof (toas_ok_delete_result D A HndA) as HokA'.
  assert (HokS' : toas_ok D (selected_toas s')).
  { destruct Hs as [(S' & HrS & ->)|[->|(A' & ns & HrA & ->)]].
    - rewrite <- HrS. now apply toas_ok_delete_result.
    - exact HokA'.
    - apply toas_ok_select. now rewrite <- HrA. }
  split; [|split].
  - unfold identity_ok. rewrite Hd, Ha. split; [exact HokA'|]. split; [exact HokS'|].
    cbn. intros Hn.
    destruct Hs as [(S' & HrS & Heq)|[Heq|(A' & ns & HrA & Heq)]];
      rewrite Heq in Hn; cbn in Hn; congruence.
  - unfold descends. rewrite Hd, Ha, HrowsA, HrowsS.
    split; [|split; [|exact Hsub]].
    + intros r Hr. eapply live_rows_delete_result; eauto.
    + intros r Hr.
      destruct Hs as [(S' & HrS & Heq)|[Heq|(A' & ns & HrA & Heq)]];
        rewrite Heq in Hr.
      * right. rewrite <- HrS in Hr. eapply live_rows_delete_result; eauto.
      * left. eapply live_rows_delete_result; eauto.
      * left. unfold live_rows in Hr. cbn in Hr.
        assert (Hin : r ∈ rows A')
          by (eapply elem_of_sublist; [exact Hr|apply select_sublist]).
        now destruct (delete_result_fresh _ _ _ _ HndA HrA Hin).
  - rewrite Hd. exact HD.
Qed.


(** * More on fitting *)

(** The part of [fit] before the random models, as a run. *)
Lemma fit_split sel iters now s s0 :
  fit sel iters false now s = (s0, Ok tt) ->
  exists kind refined,
    fit sel iters true now s = compute_random_models kind refined now s0.
Proof.
  unfold fit, bind, get, when, lift, modify.
  destruct ((if fitted s then promote else ret tt) s) as [sa [[]|]]; [|discriminate].
  destruct (fit_toas _ _ _) as [refined|]; [|discriminate]. cbv beta iota.
  destruct (store_postfit refined sa) as [sb [[]|]]; [|discriminate].
  cbv beta iota.
  destruct (zero_column "delta_pulse_numbers" _) as [ta|]; [|discriminate].
  cbv beta iota.
  destruct (zero_column "delta_pulse_number" _) as [tb|]; [|discriminate].
  cbv beta iota.
  destruct (the_postfit_model _) as [sc [pm|]]; [|discriminate].
  destruct (compute_both pm sc) as [sd [[]|]]; [|discriminate].
  unfold ret. intros [= <-]. eauto.
Qed.

Lemma fit_ok_prefit sel iters cr now s s' :
  fit sel iters cr now s = (s', Ok tt) ->
  fit_start s = Some (prefit_model s', prefit_resids s').
Proof.
  unfold fit, bind, get, when, lift, modify, fit_start.
  destruct ((if fitted s then promote else ret tt) s) as [sa [[]|]] eqn:Hp;
    [|discriminate].
  assert (Hsa : (if fitted s
                 then match postfit_model s, postfit_resids s with
                      | Some m, Some r => Some (m, r)
                      | _, _ => None
                      end
                 else Some (prefit_model s, prefit_resids s))
                = Some (prefit_model sa, prefit_resids sa)).
  { destruct (fitted s).
    - unfold promote, bind, get, modify, raise in Hp.
      destruct (postfit_model s), (postfit_resids s); simpl in Hp;
        try discriminate; injection Hp as <-; reflexivity.
    - injection Hp as <-. reflexivity. }
  rewrite Hsa. clear Hsa Hp.
  destruct (fit_toas _ _ _) as [refined|]; [|discriminate]. cbv beta iota.
  destruct (store_postfit refined sa) as [sb [[]|]] eqn:Hst; [|discriminate].
  apply store_postfit_inv in Hst.
  destruct Hst as (_ & _ & _ & _ & _ & Hpm & Hpr & _).
  cbv beta iota.
  destruct (zero_column "delta_pulse_numbers" _) as [ta|]; [|discriminate].
  cbv beta iota.
  destruct (zero_column "delta_pulse_number" _) as [tb|]; [|discriminate].
  cbv beta iota.
  destruct (the_postfit_model _) as [sc [pm|]] eqn:Hthe; [|discriminate].
  apply the_postfit_model_inv in Hthe. destruct Hthe as [-> _].
  destruct (compute_both pm _) as [sd [[]|]] eqn:Hcb; [|discriminate].
  apply compute_both_inv in Hcb. destruct Hcb as (ta' & tb' & _ & _ & ->).
  intros Hr.
  assert (Hfr : prefit_model s' = prefit_model sb /\ prefit_resids s' = prefit_resids sb).
  { destruct cr.
    - apply compute_random_models_frame in Hr.
      destruct Hr as (_ & _ & _ & _ & Hm & Hrs & _). simpl in Hm, Hrs. auto.
    - injection Hr as <-. simpl. auto. }
  destruct Hfr as [-> ->]. rewrite Hpm, Hpr. reflexivity.
Qed.

(** X9.  Two fits in a row: the second starts from what the first found.  Its
    pre-fit model and residuals are the post-fit model and residuals the
    first fit left; a first fit on an unfitted session keeps the
    pre-fit pair. *)
Theorem fit_twice_promotes (sel1 sel2 : list bool) (it1 it2 : nat) (cr1 cr2 : bool)
        (now1 now2 : Q) (s s1 s2 : Session) :
  fit sel1 it1 cr1 now1 s = (s1, Ok tt) ->
  fit sel2 it2 cr2 now2 s1 = (s2, Ok tt) ->
  Some (prefit_model s2) = postfit_model s1 /\
  Some (prefit_resids s2) = postfit_resids s1 /\
  (fitted s = false ->
   prefit_model s1 = prefit_model s /\ prefit_resids s1 = prefit_resids s).
Proof.
  intros H1 H2.
  pose proof (fit_ok_prefit _ _ _ _ _ _ H1) as Hp1.
  pose proof (fit_ok_prefit _ _ _ _ _ _ H2) as Hp2.
  apply fit_ok_inv in H1.
  destruct H1 as (pm & _ & _ & _ & _ & _ & _ & _ & Hpm & Hres & Hf & _).
  unfold fit_start in Hp1, Hp2. rewrite Hf, Hpm, Hres in Hp2.
  injection Hp2 as Hm Hr.
  split; [now rewrite Hpm, Hm|]. split; [now rewrite Hres, Hr|].
  intros Hnf. rewrite Hnf in Hp1. injection Hp1 as -> ->. auto.
Qed.

(** X10.  The random-model branch works on the side: whether it returns or
    raises, a fit with [compute_random] leaves the models, residuals,
    TOA sets and flags exactly as the same fit without it. *)
Theorem random_models_leave_fit (sel : list bool) (iters : nat) (now : Q)
        (s s0 : Session) :
  fit sel iters false now s = (s0, Ok tt) ->
  let s1 := exec (fit sel iters true now) s in
  fitted s1 = true /\
  prefit_model s1 = prefit_model s0 /\ prefit_resids s1 = prefit_resids s0 /\
  postfit_model s1 = postfit_model s0 /\ postfit_resids s1 = postfit_resids s0 /\
  all_toas s1 = all_toas s0 /\ selected_toas s1 = selected_toas s0 /\
  use_pulse_numbers s1 = use_pulse_numbers s0 /\
  deleted s1 = deleted s0 /\ comps s1 = comps s0.
Proof.
  intros H0 s1.
  destruct (fit_split _ _ _ _ _ H0) as (kind & refined & Hsplit).
  apply fit_ok_inv in H0.
  destruct H0 as (pm & _ & _ & _ & _ & _ & _ & _ & _ & _ & Hf & _).
  unfold s1, exec. rewrite Hsplit.
  destruct (compute_random_models kind refined now s0) as [s' o] eqn:Hr.
  apply compute_random_models_frame in Hr. simpl.
  destruct Hr as (Ha & Hs & Hpm & Hpr & Hm & Hrs & Hfit & Hu & Hc & Hd).
  rewrite Hfit, Hf. tauto.
Qed.

Lemma rows_assign_col (name : string) (g : Row -> Q) (t : Table) :
  index <$> rows (assign_col name g t) = index <$> rows t /\
  mjd <$> rows (assign_col name g t) = mjd <$> rows t /\
  flags <$> rows (assign_col name g t) = flags <$> rows t /\
  obs <$> rows (assign_col name g t) = obs <$> rows t.
Proof.
  unfold assign_col. cbn [rows].
  change (map (fun r => set_cell name (g r) r) (rows t))
    with ((fun r => set_cell name (g r) r) <$> rows t).
  rewrite <- !list_fmap_compose. repeat split; reflexivity.
Qed.

(** X11.  A fit that returns adds no TOA and drops none: in both sets the
    indices, observatories, times and flags are as before, row by row,
    and so is every column other than [pulse_number],
    [delta_pulse_numbers] (full set) and [delta_pulse_number] (selected
    set); the deleted set is as before. *)
Theorem fit_keeps_toas (sel : list bool) (iters : nat) (cr : bool) (now : Q)
        (s s' : Session) :
  fit sel iters cr now s = (s', Ok tt) ->
  live_indices (all_toas s') = live_indices (all_toas s) /\
  live_indices (selected_toas s') = live_indices (selected_toas s) /\
  mjd <$> live_rows (all_toas s') = mjd <$> live_rows (all_toas s) /\
  mjd <$> live_rows (selected_toas s') = mjd <$> live_rows (selected_toas s) /\
  flags <$> live_rows (all_toas s') = flags <$> live_rows (all_toas s) /\
  flags <$> live_rows (selected_toas s') = flags <$> live_rows (selected_toas s) /\
  deleted s' = deleted s /\
  forall name, name <> "pulse_number" ->
    (name <> "delta_pulse_numbers" ->
     toas_column name (all_toas s') = toas_column name (all_toas s)) /\
    (name <> "delta_pulse_number" ->
     toas_column name (selected_toas s') = toas_column name (selected_toas s)).
Proof.
  intros Hfit. apply fit_ok_inv in Hfit.
  destruct Hfit as (pm & tb & tbs & mv & Htb & Htbs & Htb' & Htbs' & _ & _ & _ & _ & Hd).
  unfold live_indices, live_rows, toas_column.
  rewrite Htb, Htbs, Htb', Htbs'.
  pose proof (rows_assign_col "pulse_number" (pulse_number mv)
                (assign_col "delta_pulse_numbers" (fun _ => 0%Q) tb)) as (Hi1 & Hm1 & Hf1 & _).
  pose proof (rows_assign_col "delta_pulse_numbers" (fun _ => 0%Q) tb) as (Hi2 & Hm2 & Hf2 & _).
  pose proof (rows_assign_col "pulse_number" (pulse_number mv)
                (assign_col "delta_pulse_number" (fun _ => 0%Q) tbs)) as (Hi3 & Hm3 & Hf3 & _).
  pose proof (rows_assign_col "delta_pulse_number" (fun _ => 0%Q) tbs) as (Hi4 & Hm4 & Hf4 & _).
  split; [congruence|]. split; [congruence|]. split; [congruence|].
  split; [congruence|]. split; [congruence|]. split; [congruence|].
  split; [exact Hd|].
  intros name Hn1. split; intros Hn2;
    rewrite !has_col_assign_other, !column_assign_other by assumption; reflexivity.
Qed.

(** ** The synthetic baseline *)

Lemma cap_redge_le (nowish maxMJD spanMJDs redge : Q) :
  (0 <= spanMJDs)%Q -> (0 <= redge)%Q ->
  (cap_redge nowish maxMJD spanMJDs redge <= redge)%Q.
Proof.
  intros Hs Hr. unfold cap_redge.
  destruct (Qltb _ _) eqn:Hc; [|apply Qle_refl].
  apply Qltb_lt in Hc.
  apply Q.max_lub; [|eapply Qle_trans; [|exact Hr]; discriminate].
  destruct (Qlt_le_dec 0 spanMJDs) as [Hpos|Hle].
  - apply Qle_shift_div_r; [exact Hpos|]. lra.
  - assert (Hz : spanMJDs == 0) by (apply Qle_antisym; assumption).
    unfold Qdiv. rewrite Hz.
    assert (Hinv : / 0 == 0) by reflexivity.
    rewrite Hinv. lra.
Qed.

Lemma regime_ledge_pos (spanMJDs : Q) : (0 < (regime spanMJDs).1.2)%Q.
Proof. regime_cases; reflexivity. Qed.

Lemma regime_npoints (spanMJDs : Q) :
  (200 <= (regime spanMJDs).2 <= 400)%nat.
Proof. regime_cases; simpl; lia. Qed.

(** X12.  The synthetic baseline always covers the selected data: it starts
    at or before the earliest selected TOA and ends at or after the
    latest one; the cap can only shorten the forward extension that the
    regime table gives; and there are between 200 and 400 points. *)
Theorem baseline_covers_data (now : Q) (selectedMJDs : list Q) (minMJD maxMJD : Q) :
  array_min selectedMJDs = Ok minMJD ->
  array_max selectedMJDs = Ok maxMJD ->
  exists lo hi n,
    random_baseline now selectedMJDs = Ok (lo, hi, n) /\
    (lo <= minMJD)%Q /\ (minMJD <= maxMJD)%Q /\ (maxMJD <= hi)%Q /\
    (hi <= maxMJD + (maxMJD - minMJD) * (regime (maxMJD - minMJD)).1.1)%Q /\
    (200 <= n <= 400)%nat.
Proof.
  intros Hmin Hmax.
  pose proof (array_min_le_max _ _ _ Hmin Hmax) as Hle.
  set (span := (maxMJD - minMJD)%Q).
  assert (Hspan : (0 <= span)%Q) by (unfold span; lra).
  pose proof (regime_factor_pos span) as Hr.
  pose proof (regime_ledge_pos span) as Hl.
  pose proof (regime_npoints span) as Hn.
  pose proof (cap_redge_nonneg (now - 40) maxMJD span (regime span).1.1
                ltac:(lra)) as Hc0.
  pose proof (cap_redge_le (now - 40) maxMJD span (regime span).1.1 Hspan
                ltac:(lra)) as Hc1.
  unfold random_baseline. rewrite Hmin, Hmax. cbn. fold span.
  destruct (regime span) as [[r l] n]. cbn in *.
  eexists _, _, _. split; [reflexivity|].
  set (c := cap_redge (now - 40) maxMJD span r) in *.
  repeat split; try lia; try nra.
Qed.

(** ** The re-centring window *)

Lemma first_at_or_after_bound (t : Q) (mjds : list Q) (i : nat) :
  first_at_or_after t mjds = Ok i -> (i < length mjds)%nat.
Proof.
  revert i. induction mjds as [|x mjds IH]; intros i; cbn; [discriminate|].
  destruct (Qle_bool 0 (x - t)).
  - intros [= <-]. lia.
  - destruct (first_at_or_after t mjds) as [j|]; cbn; [|discriminate].
    intros [= <-]. specialize (IH j eq_refl). lia.
Qed.

Lemma first_at_or_after_mono (t1 t2 : Q) (mjds : list Q) (i2 : nat) :
  (t1 <= t2)%Q -> first_at_or_after t2 mjds = Ok i2 ->
  exists i1, first_at_or_after t1 mjds = Ok i1 /\ (i1 <= i2)%nat.
Proof.
  intros Hle. revert i2. induction mjds as [|x mjds IH]; intros i2; cbn;
    [discriminate|].
  destruct (Qle_bool 0 (x - t2)) eqn:H2.
  - intros [= <-]. apply Qle_bool_iff in H2.
    assert (H1 : Qle_bool 0 (x - t1) = true) by (apply Qle_bool_iff; lra).
    rewrite H1. exists 0%nat. split; [reflexivity|lia].
  - destruct (first_at_or_after t2 mjds) as [j|]; cbn; [|discriminate].
    intros [= <-]. destruct (IH j eq_refl) as (i1 & Hi1 & Hle1).
    destruct (Qle_bool 0 (x - t1)).
    + exists 0%nat. split; [reflexivity|lia].
    + rewrite Hi1. cbn. exists (S i1). split; [reflexivity|lia].
Qed.

(** X13.  The window over which each random model is re-centred: when the
    synthetic TOAs reach the latest selected TOA, both window indices
    exist, the start is not after the end, and both point into the
    synthetic TOA set. *)
Theorem recentring_window (selectedMJDs f_toas : list Q) (minMJD maxMJD : Q)
        (end_index : nat) :
  array_min selectedMJDs = Ok minMJD ->
  array_max selectedMJDs = Ok maxMJD ->
  first_at_or_after maxMJD f_toas = Ok end_index ->
  exists start_index,
    first_at_or_after minMJD f_toas = Ok start_index /\
    (start_index <= end_index < length f_toas)%nat.
Proof.
  intros Hmin Hmax Hend.
  pose proof (array_min_le_max _ _ _ Hmin Hmax) as Hle.
  destruct (first_at_or_after_mono _ _ _ _ Hle Hend) as (i1 & H1 & Hi).
  exists i1. split; [exact H1|].
  apply first_at_or_after_bound in Hend. lia.
Qed.

Lemma no_later_filter (m : Q) (q : list Q) :
  (forall x, x ∈ q -> (x <= m)%Q) ->
  filter (fun i => Qltb m i = true) q = [].
Proof.
  induction q as [|x q IH]; intros Hall; [reflexivity|].
  rewrite filter_cons.
  rewrite decide_False.
  - apply IH. intros y Hy. apply Hall. now right.
  - intros Hlt. apply Qltb_lt in Hlt.
    assert (x <= m)%Q by (apply Hall; left). lra.
Qed.

Lemma forallb_no_jumps (l : list Row) :
  (forall r, r ∈ l -> jump (flags r) = ∅) ->
  forallb id ((fun r => negb (has_jump_key (flags r))) <$> l) = true.
Proof.
  induction l as [|r l IH]; intros Hall; [reflexivity|].
  cbn. rewrite IH by (intros x Hx; apply Hall; now right).
  unfold has_jump_key. rewrite (Hall r) by left.
  rewrite bool_decide_eq_true_2 by reflexivity. reflexivity.
Qed.

Lemma compute_random_models_needs_later (kind : Fitters) (refined : ModelView)
      (now : Q) (s : Session) (A S : Table) (m : Q) :
  table (all_toas s) = Some A ->
  table (selected_toas s) = Some S ->
  (forall r, r ∈ rows S -> jump (flags r) = ∅) ->
  array_min (mjd <$> rows S) = Ok m ->
  (forall x, x ∈ mjd <$> rows A -> (x <= m)%Q) ->
  compute_random_models kind refined now s = (s, Raise IndexError).
Proof.
  intros HA HS Hnj Hmin Hall.
  unfold compute_random_models, bind, get, lift, need_table, get_mjds.
  rewrite HS. cbv beta iota.
  unfold baseline_mean_check, bind, get, lift, get_mjds.
  rewrite (forallb_no_jumps (rows S) Hnj), HA. cbv beta iota.
  change (map mjd (rows S)) with (mjd <$> rows S). rewrite Hmin. cbv beta iota.
  change (map mjd (rows A)) with (mjd <$> rows A).
  rewrite (no_later_filter m _ Hall). reflexivity.
Qed.

(** X14.  A fit with random models needs a TOA later than the earliest
    selected one.  When no selected TOA carries a jump and no TOA of the
    full set is later than the earliest selected TOA (a selection made
    of the newest TOA only, say), the call raises an [IndexError]; the
    fit itself has been committed by then. *)
Theorem random_models_need_later_toa (sel : list bool) (iters : nat) (now : Q)
        (s s0 : Session) (A S : Table) (m : Q) :
  fit sel iters false now s = (s0, Ok tt) ->
  table (all_toas s) = Some A ->
  table (selected_toas s) = Some S ->
  (forall r, r ∈ rows S -> jump (flags r) = ∅) ->
  array_min (mjd <$> rows S) = Ok m ->
  (forall a, a ∈ rows A -> (mjd a <= m)%Q) ->
  fit sel iters true now s = (s0, Raise IndexError) /\ fitted s0 = true.
Proof.
  intros H0 HA HS Hnj Hmin Hall.
  destruct (fit_split _ _ _ _ _ H0) as (kind & refined & Hsplit).
  apply fit_ok_inv in H0.
  destruct H0 as (pm & tb & tbs & mv & Htb & Htbs & Htb' & Htbs' & _ & _ & Hf & _).
  rewrite HA in Htb. injection Htb as <-.
  rewrite HS in Htbs. injection Htbs as <-.
  split; [|exact Hf].
  rewrite Hsplit.
  pose proof (rows_assign_col "pulse_number" (pulse_number mv)
                (assign_col "delta_pulse_numbers" (fun _ => 0%Q) A)) as (_ & Hm1 & _).
  pose proof (rows_assign_col "delta_pulse_numbers" (fun _ => 0%Q) A) as (_ & Hm2 & _).
  pose proof (rows_assign_col "pulse_number" (pulse_number mv)
                (assign_col "delta_pulse_number" (fun _ => 0%Q) S)) as (_ & Hm3 & Hf3 & _).
  pose proof (rows_assign_col "delta_pulse_number" (fun _ => 0%Q) S) as (_ & Hm4 & Hf4 & _).
  eapply compute_random_models_needs_later; [exact Htb'|exact Htbs'| | |].
  - intros r Hr.
    assert (Hin : flags r ∈ flags <$> rows S).
    { rewrite <- Hf4, <- Hf3. apply list_elem_of_fmap. eauto. }
    apply list_elem_of_fmap in Hin. destruct Hin as (r0 & -> & Hr0). now apply Hnj.
  - rewrite Hm3, Hm4. exact Hmin.
  - intros x Hx. rewrite Hm1, Hm2 in Hx.
    apply list_elem_of_fmap in Hx. destruct Hx as (a & -> & Ha). now apply Hall.
Qed.

(** ** More on phase wraps *)

(** Stepping through code that only assigns attributes. *)
Ltac frame_modify :=
  apply preserves_modify;
  let s := fresh "s" in let H := fresh "H" in
  intros s H; unfold on_all_rows;
  try match goal with |- context [match table ?t with _ => _ end] => destruct (table t) end;
  simpl; solve [exact H | reflexivity].

Ltac frame :=
  repeat first
    [ apply preserves_ret | apply preserves_raise | apply preserves_get
    | apply preserves_lift
    | apply preserves_bind; [|intros ?]
    | apply preserves_when
    | frame_modify
    | solve [eauto with pres]
    | match goal with
      | |- preserves _ (match ?x with _ => _ end) => destruct x
      | |- preserves _ (let _ := _ in _) => cbv zeta
      end ].

(** [add_phase_wrap] keeps the models, the jump components, the fitted
    flag and the deleted set. *)
Lemma add_phase_wrap_frame (selected : list bool) (phase : Q) (s0 : Session) :
  preserves (fun s => fitted s = fitted s0 /\ postfit_model s = postfit_model s0 /\
                      prefit_model s = prefit_model s0 /\ comps s = comps s0 /\
                      deleted s = deleted s0)
            (add_phase_wrap selected phase).
Proof.
  unfold add_phase_wrap, col_absent, current_model, compute_both, update_resids.
  frame.
Qed.

Lemma update_where_twice {A} (g1 g2 : A -> A) (mask : list bool) (l : list A) :
  update_where g2 mask (update_where g1 mask l)
  = update_where (fun x => g2 (g1 x)) mask l.
Proof.
  revert l. induction mask as [|b mask IH]; intros [|x l]; cbn; try reflexivity.
  rewrite IH. now destruct b.
Qed.

Lemma update_where_ext {A} (g1 g2 : A -> A) (mask : list bool) (l : list A) :
  (forall x, g1 x = g2 x) -> update_where g1 mask l = update_where g2 mask l.
Proof.
  intros Hg. revert l. induction mask as [|b mask IH]; intros [|x l]; cbn;
    try reflexivity.
  rewrite IH, Hg. reflexivity.
Qed.

Lemma update_where_length {A} (g : A -> A) (mask : list bool) (l : list A) :
  length (update_where g mask l) = length l.
Proof.
  revert l. induction mask as [|b mask IH]; intros [|x l]; cbn; try reflexivity.
  now rewrite IH.
Qed.



(** ** Resets *)

Lemma same_fit_refl (s : Session) : same_fit s s.
Proof. repeat split. Qed.

Lemma delete_TOAs_same_fit (indices : list Z) (selected : option (list bool))
      (s0 : Session) :
  preserves (same_fit s0) (delete_TOAs indices selected).
Proof.
  unfold delete_TOAs, delete_from_stash, _delete_TOAs, same_fit.
  frame.
Qed.

Lemma run_deletes_same_fit (calls : list (list Z * option (list bool))) (s : Session) :
  same_fit s (run_deletes calls s).
Proof.
  unfold run_deletes.
  enough (Hgen : forall s1, same_fit s s1 ->
            same_fit s (foldl (fun s c => exec (delete_TOAs c.1 c.2) s) s1 calls))
    by (apply Hgen, same_fit_refl).
  induction calls as [|c calls IH]; intros s1 H1; cbn; [exact H1|].
  apply IH. now apply delete_TOAs_same_fit.
Qed.

Lemma reset_TOAs_same_fit (s1 s2 : Session) :
  same_fit s1 s2 ->
  result reset_TOAs s2 = result reset_TOAs s1 /\
  without_f (exec reset_TOAs s2) = without_f (exec reset_TOAs s1).
Proof.
  destruct s1, s2. unfold same_fit. cbn.
  intros (-> & -> & -> & -> & -> & -> & -> & -> & -> & -> & ->).
  unfold result, exec, reset_TOAs, update_resids, bind, modify, get, ret, raise.
  cbn. destruct fitted0; [destruct postfit_model0|]; split; reflexivity.
Qed.

(** X17.  [reset_TOAs] forgets every deletion: run after any list of
    [delete_TOAs] calls, those that raised included, it ends as it would
    have ended without them, with the same outcome and in the same
    session, the fitter object [self.f] apart. *)
Theorem reset_TOAs_forgets_deletions
        (calls : list (list Z * option (list bool))) (s : Session) :
  result reset_TOAs (run_deletes calls s) = result reset_TOAs s /\
  without_f (exec reset_TOAs (run_deletes calls s)) = without_f (exec reset_TOAs s).
Proof. apply reset_TOAs_same_fit, run_deletes_same_fit. Qed.

(** X18.  [resetAll] succeeds on every session, whatever was raised or left
    half done before, and leaves an unfitted session with tracking off,
    no deleted index, no stash and no post-fit model, whose selected set
    is the reloaded full set and whose pre-fit residuals are those of
    the reloaded model on the reloaded TOAs.  When the loaded file has
    no index twice, the identity invariant holds again. *)
Theorem resetAll_recovers (s : Session) :
  NoDup (live_indices (get_TOAs get_model.1)) ->
  let s' := exec resetAll s in
  result resetAll s = Ok tt /\
  identity_ok s' /\
  all_toas s' = get_TOAs get_model.1 /\
  selected_toas s' = all_toas s' /\
  deleted s' = ∅ /\ stashed s' = None /\
  fitted s' = false /\ use_pulse_numbers s' = false /\
  postfit_model s' = None /\ postfit_resids s' = None /\
  params (prefit_model s') = get_model.1 /\
  prefit_resids s' = Residuals (all_toas s') (view s' (prefit_model s')) None /\
  fit_start s' = Some (prefit_model s', prefit_resids s').
Proof.
  intros Hnd s'.
  assert (Hrun : resetAll s = (s', Ok tt)).
  { unfold s', exec, resetAll, load_prefit_model, reset_TOAs, update_resids,
      bind, modify, get, ret.
    destruct (get_model.2); reflexivity. }
  assert (Hs' : s' = fst (resetAll s)) by reflexivity.
  unfold result. rewrite Hrun. cbn [snd]. split; [reflexivity|].
  clear Hrun. subst s'. 
  unfold exec, resetAll, load_prefit_model, reset_TOAs, update_resids,
    bind, modify, get, ret, identity_ok, toas_ok, fit_start.
  destruct (get_model.2); cbn;
    (split; [split; [split; [exact Hnd|intros i _; set_solver]|
                     split; [split; [exact Hnd|intros i _; set_solver]|tauto]]|]);
    repeat split; reflexivity.
Qed.

(** ** Jumps *)

Lemma index_add_flag (n : nat) (mask : list bool) (l : list Row) :
  index <$> update_where (add_flag n) mask l = index <$> l.
Proof.
  revert l. induction mask as [|b mask IH]; intros [|r l]; cbn; try reflexivity.
  rewrite IH. now destruct b.
Qed.

Lemma index_clear_flag (n : nat) (l : list Row) :
  index <$> map (clear_flag n) l = index <$> l.
Proof. induction l as [|r l IH]; cbn; [reflexivity|]. now rewrite IH. Qed.

Lemma live_indices_on_all_rows (g : list Row -> list Row) (s : Session) :
  (forall l, index <$> g l = index <$> l) ->
  live_indices (all_toas (on_all_rows g s)) = live_indices (all_toas s).
Proof.
  intros Hg. unfold on_all_rows, live_indices, live_rows.
  destruct (table (all_toas s)) as [tb|] eqn:Htb; cbn; [apply Hg|].
  now rewrite Htb.
Qed.

Lemma jump_frame_on_all_rows (g : list Row -> list Row) (s0 : Session) :
  (forall l, index <$> g l = index <$> l) ->
  preserves (jump_frame s0) (modify (on_all_rows g)).
Proof.
  intros Hg. apply preserves_modify. intros s (H1 & H2 & H3 & H4 & H5 & H6).
  unfold jump_frame. rewrite (live_indices_on_all_rows g s Hg).
  unfold on_all_rows. destruct (table (all_toas s)); cbn; repeat split; assumption.
Qed.

(** X19.  [add_jump] does not recompute the residuals: whichever branch it
    takes, and whether it returns or raises, the pre-fit and post-fit
    residuals, the fitted and tracking flags, the deleted set and the
    indices of the full TOA set are those it found. *)
Theorem add_jump_leaves_residuals (selected : list bool) (s : Session) :
  let s' := exec (add_jump selected) s in
  prefit_resids s' = prefit_resids s /\ postfit_resids s' = postfit_resids s /\
  fitted s' = fitted s /\ use_pulse_numbers s' = use_pulse_numbers s /\
  deleted s' = deleted s /\
  live_indices (all_toas s') = live_indices (all_toas s).
Proof.
  intros s'.
  assert (Hp : preserves (jump_frame s) (add_jump selected)).
  { pose proof (jump_frame_on_all_rows) as Hrows.
    unfold add_jump, mirror_newest_jump, selected_flags, add_jump_and_flags,
      delete_jump_and_flags, the_postfit_model, component_of.
    repeat first
      [ apply preserves_ret | apply preserves_raise | apply preserves_get
      | apply preserves_lift
      | apply preserves_bind; [|intros ?]
      | apply preserves_when
      | apply Hrows; intros; first [apply index_add_flag | apply index_clear_flag]
      | apply preserves_modify; intros ? ?; assumption
      | match goal with
        | |- preserves _ (match ?x with _ => _ end) => destruct x
        | |- preserves _ (if ?x then _ else _) => destruct x
        | |- preserves _ (let _ := _ in _) => cbv zeta
        end ]. }
  apply (Hp s). repeat split.
Qed.



Lemma find_seq_Some (p : nat -> bool) (lo n num : nat) :
  List.find p (seq lo n) = Some num ->
  (lo <= num < lo + n)%nat /\ p num = true /\
  forall k, (lo <= k < num)%nat -> p k = false.
Proof.
  revert lo. induction n as [|n IH]; intros lo; cbn; [discriminate|].
  destruct (p lo) eqn:Hd.
  - intros [= <-]. split; [lia|]. split; [exact Hd|]. intros k Hk. lia.
  - intros Hf. destruct (IH (S lo) Hf) as (Hr & Heq & Hmin).
    split; [lia|]. split; [exact Heq|].
    intros k Hk. destruct (decide (k = lo)) as [->|Hne]; [exact Hd|].
    apply Hmin. lia.
Qed.

Lemma matching_jump_Some (numjumps : nat) (selected : list bool) (tb : Table)
      (num : nat) :
  matching_jump numjumps selected tb = Some num ->
  (1 <= num <= numjumps)%nat /\ toas_jumped_of num tb = selected /\
  forall k, (1 <= k < num)%nat -> toas_jumped_of k tb <> selected.
Proof.
  unfold matching_jump. intros Hf. apply find_seq_Some in Hf.
  destruct Hf as (Hr & Heq & Hmin).
  split; [lia|]. split; [now apply bool_decide_eq_true_1 in Heq|].
  intros k Hk. specialize (Hmin k Hk). now apply bool_decide_eq_false_1 in Hmin.
Qed.


End Theorems.

(** * The properties on concrete inputs *)

Import Demo.

(** A span of 20 days falls in the first regime. *)
Lemma regime_thresholds_witness :
  (20 < 30)%Q /\ regime 20 = (4%Q, 4%Q, 400%nat).
Proof.
  split; [reflexivity|].
  apply (proj1 (regime_thresholds 20)). reflexivity.
Defined.

(** C8 as the spec words it fails.  The selected TOAs span MJD 90 to 100
    and [now] is MJD 135, so "now minus 40 days" is MJD 95: the synthetic
    baseline still ends at MJD 100, the newest selected TOA. *)
Lemma forward_cap_counterexample :
  ~ (forall (now : Q) (selectedMJDs : list Q) (b : Q * Q * nat),
        random_baseline now selectedMJDs = Ok b -> (b.1.2 <= now - 40)%Q).
Proof.
  intros H.
  specialize (H 135%Q [90%Q; 100%Q] _ eq_refl).
  vm_compute in H. apply H. reflexivity.
Qed.

Lemma forward_cap_witness :
  random_baseline 200 [90%Q; 100%Q] = Ok ((90 - (100 - 90) * 4)%Q,
                                          (100 + (100 - 90) * 4)%Q, 400%nat).
Proof.
  destruct (forward_cap 200 [90%Q; 100%Q] 90 100 eq_refl eq_refl) as [Hb _].
  vm_compute in Hb. vm_compute. exact Hb.
Defined.

(** C1 as the spec words it fails.  The session was fitted once (the
    frequency went from 1 to 2) and its selection is empty, so the next
    fit fails in the Fit Strategy; the error reaches the caller, but the
    pre-fit model is no longer the one from before the call. *)
Lemma fit_failure_counterexample :
  let s := fitted_then_emptied in
  let call := fit (all_true 4) 1 false 0 in
  fit_toas (fitter s) (selected_toas s) (view s (@mkModel demo 2%Q None))
  = Raise FitError /\
  result call s = Raise FitError /\
  params (prefit_model s) = 1%Q /\
  params (prefit_model (exec call s)) = 2%Q /\
  prefit_model (exec call s) <> prefit_model s.
Proof.
  intros s call.
  split; [vm_compute; exact eq_refl|].
  split; [vm_compute; exact eq_refl|].
  split; [vm_compute; exact eq_refl|].
  split; [vm_compute; exact eq_refl|].
  intros H. apply (f_equal params) in H. vm_compute in H. discriminate H.
Qed.

Lemma fit_failure_state_witness :
  let s := fitted_then_emptied in
  let call := fit (all_true 4) 1 false 0 in
  result call s = Raise FitError /\
  fitted (exec call s) = fitted s /\
  all_toas (exec call s) = all_toas s /\
  selected_toas (exec call s) = selected_toas s.
Proof.
  intros s call.
  destruct (fit_failure_state (E := demo) (all_true 4) 1 false 0 s
              (@mkModel demo 2%Q None)
              [20%Q; 22%Q; 24%Q; 26%Q; 28%Q] FitError)
    as (Hres & _ & _ & _ & Hf & _ & _ & Hall & Hsel & _).
  - vm_compute. exact eq_refl.
  - vm_compute. exact eq_refl.
  - split; [exact Hres|]. split; [exact Hf|]. split; [exact Hall|exact Hsel].
Defined.

Lemma fit_empty_selection_witness :
  let s := fresh_session five in
  let call := fit (replicate 5 false) 1 false 0 in
  result call s = Ok tt /\
  exists pm, postfit_model (exec call s) = Some pm /\
             postfit_resids (exec call s)
             = Some (Residuals (all_toas (exec call s))
                               (view (exec call s) pm) None).
Proof.
  intros s call.
  assert (Hres : result call s = Ok tt) by (vm_compute; exact eq_refl).
  split; [exact Hres|].
  exact (proj2 (proj2 (fit_empty_selection 5 1 false 0 s)) _ (run_ok _ _ _ Hres)).
Defined.

(** The residuals of that fit, over all five TOAs. *)
Example fit_empty_selection_resids :
  postfit_resids (exec (fit (replicate 5 false) 1 false 0) (fresh_session five))
  = Some [20%Q; 22%Q; 24%Q; 26%Q; 28%Q].
Proof. vm_compute. exact eq_refl. Qed.

Lemma fit_leaves_full_delta_witness :
  let call := fit (all_true 5) 1 false 0 in
  let s' := exec call wrapped in
  result call wrapped = Ok tt /\
  exists tb tb',
    table (all_toas wrapped) = Some tb /\
    table (all_toas s') = Some tb' /\
    column "delta_pulse_number" tb' = column "delta_pulse_number" tb /\
    prefit_resids (exec update_resids s')
    = Residuals (all_toas s') (view s' (prefit_model s')) (track_mode_of wrapped).
Proof.
  intros call s'.
  assert (Hres : result call wrapped = Ok tt) by (vm_compute; exact eq_refl).
  split; [exact Hres|].
  destruct (fit_leaves_full_delta (all_true 5) 1 false 0 wrapped s'
              (run_ok _ _ _ Hres))
    as (tb & tb' & tbs' & Htb & Htb' & _ & _ & _ & _ & Hcol & _ & _ & _ & Hr).
  exists tb, tb'. split; [exact Htb|]. split; [exact Htb'|].
  split; [exact Hcol|exact Hr].
Defined.

(** The wrap put on TOA 0 before the fit is still in the full TOA set
    after it, and the residuals recomputed in tracking mode show it. *)
Example wrap_survives_fit :
  let s' := exec (fit (all_true 5) 1 false 0) wrapped in
  toas_column "delta_pulse_number" (all_toas s')
  = Some [Some 1%Q; Some 0%Q; Some 0%Q; Some 0%Q; Some 0%Q] /\
  toas_column "delta_pulse_number" (selected_toas s')
  = Some [Some 0%Q; Some 0%Q; Some 0%Q; Some 0%Q; Some 0%Q] /\
  prefit_resids (exec update_resids s') = [11%Q; 11%Q; 12%Q; 13%Q; 14%Q].
Proof.
  intros s'.
  split; [vm_compute; exact eq_refl|].
  split; vm_compute; exact eq_refl.
Qed.


(** The columns after one wrap of TOA 0 on a fresh session. *)
Example wrapped_columns :
  toas_column "delta_pulse_number" (all_toas wrapped)
  = Some [Some 1%Q; Some 0%Q; Some 0%Q; Some 0%Q; Some 0%Q] /\
  toas_column "delta_pulse_number" (selected_toas wrapped)
  = Some [Some 0%Q; Some 0%Q; Some 0%Q; Some 0%Q; Some 0%Q] /\
  toas_column "pulse_number" (all_toas wrapped)
  = Some [Some 10%Q; Some 11%Q; Some 12%Q; Some 13%Q; Some 14%Q] /\
  use_pulse_numbers wrapped = true.
Proof.
  split; [vm_compute; exact eq_refl|].
  split; [vm_compute; exact eq_refl|].
  split; vm_compute; exact eq_refl.
Qed.

(** ** Deleting TOAs, on the toy pulsar *)

Ltac by_compute := apply (bool_decide_unpack _); vm_compute; exact I.

Lemma five_NoDup : NoDup (index_col five).
Proof. by_compute. Qed.

Lemma ten_NoDup : NoDup (index_col ten).
Proof. by_compute. Qed.

Lemma last_NoDup :
  NoDup (index_col (mkTable (colnames five) (select only_last (rows five)))).
Proof. by_compute. Qed.


(** The spec's scenario: ten TOAs, all selected, TOAs 3 and 7 deleted. *)
Example delete_two_of_ten :
  let call := delete_TOAs [3%Z; 7%Z] (Some (all_true 10)) in
  result call (fresh_session ten) = Ok (all_true 8) /\
  live_indices (all_toas (exec call (fresh_session ten)))
  = [0; 1; 2; 4; 5; 6; 8; 9]%Z /\
  live_indices (selected_toas (exec call (fresh_session ten)))
  = [0; 1; 2; 4; 5; 6; 8; 9]%Z.
Proof.
  intros call.
  split; [vm_compute; exact eq_refl|].
  split; vm_compute; exact eq_refl.
Qed.


Lemma delete_without_mask_raises_witness :
  let s := fresh_session five in
  let call := delete_TOAs [0%Z] None in
  result call s = Raise TypeError /\
  deleted (exec call s) = deleted s ∪ list_to_set [0%Z] /\
  all_toas (exec call s)
  = mkTOAs (delete_result (deleted s ∪ list_to_set [0%Z]) five) /\
  selected_toas (exec call s) = selected_toas s.
Proof.
  intros s call.
  exact (delete_without_mask_raises [0%Z] s five five eq_refl eq_refl).
Defined.

Lemma five_keeps_last (s : Session) :
  deleted s = ∅ ->
  exists r, r ∈ rows five /\ index r ∉ deleted s ∪ list_to_set [0%Z].
Proof.
  intros ->. exists (toa 4 "gbt" 14). split.
  - apply (list_elem_of_lookup_2 _ 4%nat). reflexivity.
  - by_compute.
Qed.

Lemma last_keeps_last (s : Session) :
  deleted s = ∅ ->
  exists r, r ∈ rows (mkTable (colnames five) (select only_last (rows five))) /\
            index r ∉ deleted s ∪ list_to_set [0%Z].
Proof.
  intros ->. exists (toa 4 "gbt" 14). split.
  - apply (list_elem_of_lookup_2 _ 0%nat). reflexivity.
  - by_compute.
Qed.

Lemma delete_mask_is_prefix_witness :
  let s := last_selected in
  exists s' A',
    delete_TOAs [0%Z] (Some only_last) s
    = (s', Ok (take (table_len A') only_last)) /\
    deleted s' = deleted s ∪ list_to_set [0%Z] /\
    table (all_toas s') = Some A' /\
    rows A' ≡ₚ kept (deleted s ∪ list_to_set [0%Z]) five /\
    table (selected_toas s')
    = Some (mkTable (colnames A')
              (select (take (table_len A') only_last) (rows A'))).
Proof.
  intros s.
  refine (delete_mask_is_prefix [0%Z] only_last s five _ eq_refl eq_refl
            five_NoDup last_NoDup _ eq_refl
            (five_keeps_last s eq_refl) (last_keeps_last s eq_refl)).
  vm_compute. lia.
Defined.

(** What that call does: TOA 4 was the selection and TOA 0 is deleted;
    the mask comes back all false and the selected set is left without
    a row, although TOA 4 is still in the full set. *)
Example delete_shifts_selection :
  let call := delete_TOAs [0%Z] (Some only_last) in
  result call last_selected = Ok [false; false; false; false] /\
  live_indices (all_toas (exec call last_selected)) = [1; 2; 3; 4]%Z /\
  live_indices (selected_toas (exec call last_selected)) = [].
Proof.
  intros call.
  split; [vm_compute; exact eq_refl|].
  split; vm_compute; exact eq_refl.
Qed.

Lemma delete_mask_marks_selection_witness :
  let s := last_selected in
  exists s' mask A' S',
    delete_TOAs [0%Z] (Some only_last) s = (s', Ok mask) /\
    table (all_toas s') = Some A' /\
    table (selected_toas s') = Some S' /\
    length mask = table_len A' /\
    forall i r, rows A' !! i = Some r ->
                (mask !! i = Some true <-> index r ∈ index_col S').
Proof.
  intros s.
  refine (delete_mask_marks_selection [0%Z] only_last s five _ eq_refl eq_refl
            five_NoDup last_NoDup _ eq_refl
            (five_keeps_last s eq_refl) (last_keeps_last s eq_refl)).
  vm_compute. lia.
Defined.



Lemma fresh_identity_ok : identity_ok (fresh_session five).
Proof.
  split; [|split].
  - split; [exact five_NoDup|]. intros i _. apply not_elem_of_empty.
  - split; [exact five_NoDup|]. intros i _. apply not_elem_of_empty.
  - discriminate.
Qed.


(** ** Fitting, on the toy pulsar *)

Lemma fit_twice_promotes_witness :
  let s := fresh_session five in
  let s1 := exec (fit (all_true 5) 1 false 0) s in
  let s2 := exec (fit (all_true 5) 1 true 200) s1 in
  Some (prefit_model s2) = postfit_model s1 /\
  Some (prefit_resids s2) = postfit_resids s1 /\
  (fitted s = false ->
   prefit_model s1 = prefit_model s /\ prefit_resids s1 = prefit_resids s).
Proof.
  intros s s1 s2.
  assert (H1 : result (fit (all_true 5) 1 false 0) s = Ok tt)
    by (vm_compute; exact eq_refl).
  assert (H2 : result (fit (all_true 5) 1 true 200) s1 = Ok tt)
    by (vm_compute; exact eq_refl).
  exact (fit_twice_promotes (all_true 5) (all_true 5) 1 1 false true 0 200 s s1 s2
           (run_ok _ _ _ H1) (run_ok _ _ _ H2)).
Defined.

(** The frequency of the toy model after each of the two fits. *)
Example fit_twice_models :
  let s1 := exec (fit (all_true 5) 1 false 0) (fresh_session five) in
  let s2 := exec (fit (all_true 5) 1 true 200) s1 in
  params (prefit_model s1) = 1%Q /\
  params <$> postfit_model s1 = Some 2%Q /\
  params (prefit_model s2) = 2%Q /\
  params <$> postfit_model s2 = Some 3%Q.
Proof.
  intros s1 s2.
  split; [vm_compute; exact eq_refl|].
  split; [vm_compute; exact eq_refl|].
  split; vm_compute; exact eq_refl.
Qed.

Lemma random_models_leave_fit_witness :
  let s := fresh_session five in
  let s0 := exec (fit (all_true 5) 1 false 200) s in
  let s1 := exec (fit (all_true 5) 1 true 200) s in
  fitted s1 = true /\
  prefit_model s1 = prefit_model s0 /\ prefit_resids s1 = prefit_resids s0 /\
  postfit_model s1 = postfit_model s0 /\ postfit_resids s1 = postfit_resids s0 /\
  all_toas s1 = all_toas s0 /\ selected_toas s1 = selected_toas s0 /\
  use_pulse_numbers s1 = use_pulse_numbers s0 /\
  deleted s1 = deleted s0 /\ comps s1 = comps s0.
Proof.
  intros s s0 s1.
  assert (H0 : result (fit (all_true 5) 1 false 200) s = Ok tt)
    by (vm_compute; exact eq_refl).
  exact (random_models_leave_fit (all_true 5) 1 200 s s0 (run_ok _ _ _ H0)).
Defined.

Lemma fit_keeps_toas_witness :
  let s := wrapped in
  let s' := exec (fit (all_true 5) 1 false 0) s in
  live_indices (all_toas s') = live_indices (all_toas s) /\
  live_indices (selected_toas s') = live_indices (selected_toas s) /\
  deleted s' = deleted s.
Proof.
  intros s s'.
  assert (H0 : result (fit (all_true 5) 1 false 0) s = Ok tt)
    by (vm_compute; exact eq_refl).
  destruct (fit_keeps_toas (all_true 5) 1 false 0 s s' (run_ok _ _ _ H0))
    as (Ha & Hs & _ & _ & _ & _ & Hd & _).
  split; [exact Ha|]. split; [exact Hs|exact Hd].
Defined.

Lemma baseline_covers_data_witness :
  exists lo hi n,
    random_baseline 135 [90%Q; 100%Q] = Ok (lo, hi, n) /\
    (lo <= 90)%Q /\ (90 <= 100)%Q /\ (100 <= hi)%Q /\
    (hi <= 100 + (100 - 90) * (regime (100 - 90)).1.1)%Q /\
    (200 <= n <= 400)%nat.
Proof.
  exact (baseline_covers_data 135 [90%Q; 100%Q] 90 100 eq_refl eq_refl).
Defined.

Lemma recentring_window_witness :
  exists start_index,
    first_at_or_after 90 [50%Q; 70%Q; 90%Q; 100%Q; 140%Q] = Ok start_index /\
    (start_index <= 3 < length [50%Q; 70%Q; 90%Q; 100%Q; 140%Q])%nat.
Proof.
  exact (recentring_window [90%Q; 100%Q] [50%Q; 70%Q; 90%Q; 100%Q; 140%Q]
           90 100 3 eq_refl eq_refl eq_refl).
Defined.

(** Only the newest of the five TOAs is selected: the fit goes through,
    the random models do not. *)
Lemma random_models_need_later_toa_witness :
  let s := last_selected in
  let s0 := exec (fit only_last 1 false 200) s in
  fit only_last 1 true 200 s = (s0, Raise IndexError) /\ fitted s0 = true.
Proof.
  intros s s0.
  assert (H0 : result (fit only_last 1 false 200) s = Ok tt)
    by (vm_compute; exact eq_refl).
  refine (random_models_need_later_toa only_last 1 200 s s0 five
            (mkTable (colnames five) (select only_last (rows five))) 14
            (run_ok _ _ _ H0) eq_refl eq_refl _ eq_refl _).
  - intros r Hr. cbn in Hr. apply list_elem_of_singleton in Hr. now subst r.
  - intros a Ha. cbn in Ha.
    repeat (apply elem_of_cons in Ha; destruct Ha as [->|Ha]; [discriminate|]).
    now apply elem_of_nil in Ha.
Defined.



(** [resetAll] on a session without tables that claims to be fitted. *)
Lemma resetAll_recovers_witness :
  result (resetAll (E := demo_loaded)) broken = Ok tt /\
  live_indices (all_toas (exec (resetAll (E := demo_loaded)) broken))
  = [0; 1; 2; 3; 4]%Z /\
  fitted (exec (resetAll (E := demo_loaded)) broken) = false.
Proof.
  destruct (resetAll_recovers (E := demo_loaded) broken
              ltac:(apply (bool_decide_unpack _); vm_compute; exact I))
    as (Hr & _ & Ha & _ & _ & _ & Hf & _).
  split; [exact Hr|]. split; [rewrite Ha; reflexivity|exact Hf].
Defined.



